(** * A model of the text-only PDF reader (script.js)

    The script is a single class, [TextOnlyPDFReader], driven by DOM events
    and by the promises of the PDF library.  JavaScript runs every handler
    and every continuation of an [await] to completion before the next one
    starts, so the model is a transition system whose steps are exactly those
    run-to-completion blocks:

    - the fields of the reader ([this.pdfDoc], [this.pageNum], ...) are a
      record that every step reads and rewrites;
    - the part of the browser the script touches (the elements it creates,
      the fixed controls, [localStorage], the console, [alert]) is a second
      record;
    - an [async] method that is suspended at an [await] is a [Frame] in a
      pool; the event that resumes it carries what the awaited promise
      settled to, which the environment chooses;
    - the calls made to the PDF library are appended to a trace.

    Geometry (viewport sizes, span positions, the random offsets of the
    decorative particles) is floating point and is written only through
    [DOMHelpers.setStyles]; style properties are not part of the model. *)

From Stdlib Require Import ZArith QArith Lia Ascii String Strings.Byte.
From stdpp Require Import gmap strings list pretty.

Local Open Scope Z_scope.

(** ** JavaScript strings *)

(** A JavaScript string is a sequence of UTF-16 code units. *)
Definition jsstring := list N.

(** An ASCII literal of the script, as code units. *)
Definition lit (s : string) : jsstring :=
  N_of_ascii <$> list_ascii_of_string s.

(** [ToString] on an integral Number (template literals use it). *)
Definition ToString (n : Z) : jsstring := lit (pretty n).

(** [ToString] on a boolean ([localStorage.setItem] stores strings). *)
Definition bool_to_string (b : bool) : string :=
  if b then "true"%string else "false"%string.

(** [s.replace(/c/g, r)] for a pattern that is one literal code unit and a
    replacement without [$] patterns: every occurrence of [c] becomes [r],
    left to right, and the text between occurrences is copied. *)
Definition replace_all (c : N) (r : jsstring) (s : jsstring) : jsstring :=
  flat_map (fun x => if N.eqb x c then r else [x]) s.

(** White space and line terminators removed by [String.prototype.trim]. *)
Definition is_js_space (c : N) : bool :=
  let c := Z.of_N c in
  (9 <=? c) && (c <=? 13) || (c =? 32) || (c =? 160) || (c =? 5760)
  || (8192 <=? c) && (c <=? 8202) || (c =? 8232) || (c =? 8233)
  || (c =? 8239) || (c =? 8287) || (c =? 12288) || (c =? 65279).

Fixpoint trim_start (s : jsstring) : jsstring :=
  match s with
  | c :: s' => if is_js_space c then trim_start s' else s
  | [] => []
  end.

Definition trim (s : jsstring) : jsstring :=
  reverse (trim_start (reverse (trim_start s))).

(** ** The text run post-processor (renderTextContent, lines 174-182) *)

Module Dash.
Definition en_dash : N := 0x2013.
Definition em_dash : N := 0x2014.
Definition figure_dash : N := 0x2012.

(** The three replacement literals, code unit by code unit as they stand
    in the file. *)
Definition en_dash_literal : jsstring := [0x201A; 0xC4; 0xEC]%N.
Definition em_dash_literal : jsstring := [0x201A; 0xC4; 0xEE]%N.
Definition figure_dash_literal : jsstring := [0x201A; 0xC4; 0xEB]%N.
End Dash.

(** The body of the [map] callback on [item.str]: three replacements, one
    after the other. *)
Definition remap_dashes (s : jsstring) : jsstring :=
  let s := replace_all Dash.en_dash Dash.en_dash_literal s in
  let s := replace_all Dash.em_dash Dash.em_dash_literal s in
  let s := replace_all Dash.figure_dash Dash.figure_dash_literal s in
  s.

(** A text run as the library returns it.  The transform is a matrix of
    floating-point numbers; the model carries it along untouched. *)
Inductive Transform := Matrix (handle : nat).

Record TextItem := {
  str : jsstring;
  transform : Transform
}.

(** [{ ...item, str: s }] *)
Definition processItem (item : TextItem) : TextItem :=
  {| str := remap_dashes (str item); transform := transform item |}.

(** ** The PDF library, as the script sees it *)

Definition Error := string.

(** What an awaited promise settles to (or what a call returns or throws). *)
Inductive Result (A : Type) :=
| Resolved (a : A)
| Rejected (e : Error).
Arguments Resolved {A} a.
Arguments Rejected {A} e.

Record PDFDocumentProxy := { numPages : Z }.

Inductive PageViewport := Viewport (handle : nat).

(** A page handle; [getViewport] is what [page.getViewport({ scale })]
    does for the reader's fixed scale. *)
Record PDFPageProxy := { getViewport : Result PageViewport }.

(** Parameters of [pdfjsLib.getDocument]. *)
Record DocumentInit := {
  data : list byte;
  disableFontFace : bool;
  useSystemFonts : bool
}.

(** Parameters of [page.getTextContent]. *)
Record TextContentParams := {
  normalizeWhitespace : bool;
  disableCombineTextItems : bool
}.

Inductive PdfjsCall :=
| GetDocument (init : DocumentInit)
| GetPage (pageNumber : Z)
| GetViewport (scale : Q)
| GetTextContent (params : TextContentParams).

(** ** The browser *)

Record Element := {
  tagName : string;
  className : string;
  textContent : jsstring;
  childNodes : list nat
}.

Inductive ConsoleEntry :=
| ConsoleLog (label : string) (text : jsstring)
| ConsoleError (label : string) (error : Error).

Record Browser := {
  nodes : gmap nat Element;      (* elements created by the script *)
  nextNode : nat;                (* next free element identity *)
  pdfContainer : list nat;       (* children of #pdfContainer *)
  pageInfo : jsstring;           (* #pageInfo.textContent *)
  prevPage_disabled : bool;      (* #prevPage.disabled *)
  nextPage_disabled : bool;      (* #nextPage.disabled *)
  bodyClassList : gset string;   (* document.body.classList *)
  darkModeToggle : jsstring;     (* #darkModeToggle.textContent *)
  localStorage : gmap string string;
  console : list ConsoleEntry;
  alerts : list string
}.

(** ** The reader object *)

Record Reader := {
  pdfDoc : option PDFDocumentProxy;
  pageNum : Z;
  pageRendering : bool;
  pageNumPending : option Z;
  scale : Q;
  textContainer : option nat
}.

(** ** Suspended async methods *)

(** Every render cycle (a call of [renderCurrentPage] that passes its guard)
    gets a number; it identifies the promise that call returned. *)
Inductive Frame :=
| LoadReadingFile                                  (* loadPDF, line 79 *)
| LoadOpeningDocument                              (* loadPDF, line 89 *)
| LoadAwaitingRender (cycle : option nat)          (* loadPDF, line 92;
                                                      None: already settled *)
| RenderGettingPage (cycle : nat)                  (* renderCurrentPage, 116 *)
| RenderGettingText (cycle : nat) (pageWrapper : nat)
                                                   (* renderTextContent, 168 *)
| RenderTextReturned (cycle : nat) (pageWrapper : nat).
                                                   (* renderCurrentPage, 147 *)

Record World := {
  this : Reader;
  page : Browser;
  frames : list Frame;
  pdfjs : list PdfjsCall;        (* calls made to the library, oldest first *)
  cycles : nat                   (* render cycles started so far *)
}.

(** ** Field updates *)

Definition set_nodes (m : gmap nat Element) (next : nat) (b : Browser) : Browser :=
  {| nodes := m; nextNode := next; pdfContainer := pdfContainer b;
     pageInfo := pageInfo b; prevPage_disabled := prevPage_disabled b;
     nextPage_disabled := nextPage_disabled b;
     bodyClassList := bodyClassList b; darkModeToggle := darkModeToggle b;
     localStorage := localStorage b; console := console b;
     alerts := alerts b |}.

Definition set_pdfContainer (l : list nat) (b : Browser) : Browser :=
  {| nodes := nodes b; nextNode := nextNode b; pdfContainer := l;
     pageInfo := pageInfo b; prevPage_disabled := prevPage_disabled b;
     nextPage_disabled := nextPage_disabled b;
     bodyClassList := bodyClassList b; darkModeToggle := darkModeToggle b;
     localStorage := localStorage b; console := console b;
     alerts := alerts b |}.

Definition set_controls (info : jsstring) (prev next : bool) (b : Browser) : Browser :=
  {| nodes := nodes b; nextNode := nextNode b;
     pdfContainer := pdfContainer b; pageInfo := info;
     prevPage_disabled := prev; nextPage_disabled := next;
     bodyClassList := bodyClassList b; darkModeToggle := darkModeToggle b;
     localStorage := localStorage b; console := console b;
     alerts := alerts b |}.

Definition set_bodyClassList (c : gset string) (b : Browser) : Browser :=
  {| nodes := nodes b; nextNode := nextNode b;
     pdfContainer := pdfContainer b; pageInfo := pageInfo b;
     prevPage_disabled := prevPage_disabled b;
     nextPage_disabled := nextPage_disabled b; bodyClassList := c;
     darkModeToggle := darkModeToggle b; localStorage := localStorage b;
     console := console b; alerts := alerts b |}.

Definition set_darkModeToggle (s : jsstring) (b : Browser) : Browser :=
  {| nodes := nodes b; nextNode := nextNode b;
     pdfContainer := pdfContainer b; pageInfo := pageInfo b;
     prevPage_disabled := prevPage_disabled b;
     nextPage_disabled := nextPage_disabled b;
     bodyClassList := bodyClassList b; darkModeToggle := s;
     localStorage := localStorage b; console := console b;
     alerts := alerts b |}.

Definition set_localStorage (m : gmap string string) (b : Browser) : Browser :=
  {| nodes := nodes b; nextNode := nextNode b;
     pdfContainer := pdfContainer b; pageInfo := pageInfo b;
     prevPage_disabled := prevPage_disabled b;
     nextPage_disabled := nextPage_disabled b;
     bodyClassList := bodyClassList b; darkModeToggle := darkModeToggle b;
     localStorage := m; console := console b; alerts := alerts b |}.

Definition set_console (l : list ConsoleEntry) (b : Browser) : Browser :=
  {| nodes := nodes b; nextNode := nextNode b;
     pdfContainer := pdfContainer b; pageInfo := pageInfo b;
     prevPage_disabled := prevPage_disabled b;
     nextPage_disabled := nextPage_disabled b;
     bodyClassList := bodyClassList b; darkModeToggle := darkModeToggle b;
     localStorage := localStorage b; console := l; alerts := alerts b |}.

Definition set_alerts (l : list string) (b : Browser) : Browser :=
  {| nodes := nodes b; nextNode := nextNode b;
     pdfContainer := pdfContainer b; pageInfo := pageInfo b;
     prevPage_disabled := prevPage_disabled b;
     nextPage_disabled := nextPage_disabled b;
     bodyClassList := bodyClassList b; darkModeToggle := darkModeToggle b;
     localStorage := localStorage b; console := console b; alerts := l |}.

Definition set_pdfDoc (d : option PDFDocumentProxy) (r : Reader) : Reader :=
  {| pdfDoc := d; pageNum := pageNum r; pageRendering := pageRendering r;
     pageNumPending := pageNumPending r; scale := scale r;
     textContainer := textContainer r |}.

Definition set_pageNum (n : Z) (r : Reader) : Reader :=
  {| pdfDoc := pdfDoc r; pageNum := n; pageRendering := pageRendering r;
     pageNumPending := pageNumPending r; scale := scale r;
     textContainer := textContainer r |}.

Definition set_pageRendering (f : bool) (r : Reader) : Reader :=
  {| pdfDoc := pdfDoc r; pageNum := pageNum r; pageRendering := f;
     pageNumPending := pageNumPending r; scale := scale r;
     textContainer := textContainer r |}.

Definition set_pageNumPending (p : option Z) (r : Reader) : Reader :=
  {| pdfDoc := pdfDoc r; pageNum := pageNum r;
     pageRendering := pageRendering r; pageNumPending := p; scale := scale r;
     textContainer := textContainer r |}.

Definition set_textContainer (t : option nat) (r : Reader) : Reader :=
  {| pdfDoc := pdfDoc r; pageNum := pageNum r;
     pageRendering := pageRendering r; pageNumPending := pageNumPending r;
     scale := scale r; textContainer := t |}.

Definition on_this (f : Reader -> Reader) (w : World) : World :=
  {| this := f (this w); page := page w; frames := frames w;
     pdfjs := pdfjs w; cycles := cycles w |}.

Definition on_page (f : Browser -> Browser) (w : World) : World :=
  {| this := this w; page := f (page w); frames := frames w;
     pdfjs := pdfjs w; cycles := cycles w |}.

Definition set_frames (l : list Frame) (w : World) : World :=
  {| this := this w; page := page w; frames := l; pdfjs := pdfjs w;
     cycles := cycles w |}.

Definition call_pdfjs (c : PdfjsCall) (w : World) : World :=
  {| this := this w; page := page w; frames := frames w;
     pdfjs := pdfjs w ++ [c]; cycles := cycles w |}.

Definition set_cycles (n : nat) (w : World) : World :=
  {| this := this w; page := page w; frames := frames w; pdfjs := pdfjs w;
     cycles := n |}.

(** ** DOMHelpers and the platform calls *)

Definition createElement (tag cls : string) (b : Browser) : nat * Browser :=
  let id := nextNode b in
  let element :=
    {| tagName := tag; className := cls; textContent := [];
       childNodes := [] |} in
  (id, set_nodes (<[id := element]> (nodes b)) (S id) b).

(** [parent.appendChild(child)] on elements the script created. *)
Definition appendChild (parent child : nat) (b : Browser) : Browser :=
  let add e :=
    {| tagName := tagName e; className := className e;
       textContent := textContent e;
       childNodes := childNodes e ++ [child] |} in
  set_nodes (alter add parent (nodes b)) (nextNode b) b.

(** [element.textContent = s] *)
Definition set_textContent (id : nat) (s : jsstring) (b : Browser) : Browser :=
  let put e :=
    {| tagName := tagName e; className := className e; textContent := s;
       childNodes := [] |} in
  set_nodes (alter put id (nodes b)) (nextNode b) b.

(** [DOMHelpers.clearElement(this.container)] *)
Definition clearElement_container (b : Browser) : Browser :=
  set_pdfContainer [] b.

(** [this.container.appendChild(child)] *)
Definition container_appendChild (child : nat) (b : Browser) : Browser :=
  set_pdfContainer (pdfContainer b ++ [child]) b.

Definition console_log (label : string) (s : jsstring) (w : World) : World :=
  on_page (fun b => set_console (console b ++ [ConsoleLog label s]) b) w.

Definition console_error (label : string) (e : Error) (w : World) : World :=
  on_page (fun b => set_console (console b ++ [ConsoleError label e]) b) w.

Definition alert (msg : string) (w : World) : World :=
  on_page (fun b => set_alerts (alerts b ++ [msg]) b) w.

(** An [await] on a promise that is not settled yet. *)
Definition suspend (f : Frame) (w : World) : World :=
  set_frames (frames w ++ [f]) w.

(** ** updateUI (lines 242-256) *)

Definition updateUI (w : World) : World :=
  match pdfDoc (this w) with
  | Some doc =>
      on_page
        (set_controls
           (lit "Page " ++ ToString (pageNum (this w)) ++ lit " of "
              ++ ToString (numPages doc))
           (pageNum (this w) <=? 1)
           (pageNum (this w) >=? numPages doc))
        w
  | None => on_page (set_controls (lit "No PDF loaded") true true) w
  end.

(** ** Dark mode (lines 258-282) *)

Module Glyph.
(** The two literals of [updateDarkModeButton], as they stand in the file:
    the first is shown when dark mode is active (the sun), the second
    otherwise (the moon). *)
Definition sun : jsstring := [0x201A; 0xF2; 0xC4; 0xD4; 0x220F; 0xE8]%N.
Definition moon : jsstring := [0xF8FF; 0xFC; 0xE5; 0xF4]%N.
End Glyph.

(** [document.body.classList.contains('dark-mode')] *)
Definition contains_dark_mode (b : Browser) : bool :=
  bool_decide ("dark-mode"%string ∈ bodyClassList b).

Definition updateDarkModeButton (b : Browser) : Browser :=
  let isDarkMode := contains_dark_mode b in
  set_darkModeToggle (if isDarkMode then Glyph.sun else Glyph.moon) b.

(** [localStorage.getItem('darkMode') === 'true'] *)
Definition savedDarkMode (b : Browser) : bool :=
  bool_decide (localStorage b !! "darkMode"%string = Some "true"%string).

Definition initDarkMode (b : Browser) : Browser :=
  let b :=
    if savedDarkMode b
    then set_bodyClassList (bodyClassList b ∪ {["dark-mode"%string]}) b
    else b in
  updateDarkModeButton b.

(** [classList.toggle]: remove the token when present, add it otherwise. *)
Definition classList_toggle (token : string) (c : gset string) : gset string :=
  if bool_decide (token ∈ c) then c ∖ {[token]} else c ∪ {[token]}.

Definition toggleDarkMode (b : Browser) : Browser :=
  let b :=
    set_bodyClassList (classList_toggle "dark-mode" (bodyClassList b)) b in
  let isDarkMode := contains_dark_mode b in
  let b :=
    set_localStorage
      (<["darkMode"%string := bool_to_string isDarkMode]> (localStorage b))
      b in
  updateDarkModeButton b.

(** ** renderCurrentPage up to its first await (lines 110-116) *)

(** Returns the world and the promise of the call: [Some cycle] when a render
    cycle was started, [None] when the guard returned at once. *)
Definition renderCurrentPage (w : World) : World * option nat :=
  match pdfDoc (this w) with
  | None => (w, None)
  | Some _ =>
      if pageRendering (this w) then (w, None)
      else
        let w := on_this (set_pageRendering true) w in
        let cycle := cycles w in
        let w := set_cycles (S cycle) w in
        let w := call_pdfjs (GetPage (pageNum (this w))) w in
        (suspend (RenderGettingPage cycle) w, Some cycle)
  end.

(** ** navigateToPage (lines 221-235) *)

Definition navigateToPage (pageNum' : Z) (w : World) : World :=
  match pdfDoc (this w) with
  | None => w
  | Some doc =>
      if (pageNum' <? 1) || (pageNum' >? numPages doc) then w
      else if pageRendering (this w) then
        on_this (set_pageNumPending (Some pageNum')) w
      else
        let w := on_this (set_pageNum pageNum') w in
        let w := fst (renderCurrentPage w) in
        updateUI w
  end.

(** ** renderCurrentPage after its awaits (lines 116-162) *)

(** The promise of render cycle [cycle] resolves: a [loadPDF] that awaits it
    (line 92) can continue. *)
Definition settle (cycle : nat) (w : World) : World :=
  let wake f :=
    match f with
    | LoadAwaitingRender (Some c) =>
        if Nat.eqb c cycle then LoadAwaitingRender None else f
    | _ => f
    end in
  set_frames (wake <$> frames w) w.

(** The [catch] block (lines 151-152). *)
Definition renderCurrentPage_catch (e : Error) (w : World) : World :=
  console_error "Error rendering page:" e w.

(** The [finally] block (lines 153-162), after which the async function
    returns. *)
Definition renderCurrentPage_finally (cycle : nat) (w : World) : World :=
  let w := on_this (set_pageRendering false) w in
  let w :=
    match pageNumPending (this w) with
    | Some pendingPage =>
        let w := on_this (set_pageNumPending None) w in
        navigateToPage pendingPage w
    | None => w
    end in
  settle cycle w.

(** [createParticles]: the loop body, [count] times. *)
Fixpoint createParticles (count : nat) (container : nat) (b : Browser)
  : Browser :=
  match count with
  | O => b
  | S count' =>
      let '(particle, b) := createElement "div" "particle" b in
      createParticles count' container (appendChild container particle b)
  end.

(** The page indicator's literal prefix, as it stands in the file. *)
Definition page_indicator_prefix : jsstring :=
  lit "P" ++ [0x221A; 0xB0]%N ++ lit "gina ".

(** Lines 120-144: clear the container and build the detached page. *)
Definition build_page (n : Z) (b : Browser) : nat * nat * Browser :=
  let b := clearElement_container b in
  let '(pageWrapper, b) := createElement "div" "text-page-wrapper" b in
  let '(textContainer', b) := createElement "div" "text-page zoom-in" b in
  let '(pageIndicator, b) := createElement "div" "page-indicator" b in
  let b := set_textContent pageIndicator (page_indicator_prefix ++ ToString n) b in
  let '(particlesContainer, b) :=
    createElement "div" "text-page-particles" b in
  let b := createParticles 8 particlesContainer b in
  let b := appendChild textContainer' pageIndicator b in
  let b := appendChild textContainer' particlesContainer b in
  let b := appendChild pageWrapper textContainer' b in
  (pageWrapper, textContainer', b).

(** The options of the text-content request (lines 168-171). *)
Definition textContentParams : TextContentParams :=
  {| normalizeWhitespace := true; disableCombineTextItems := false |}.

(** The continuation of [await this.pdfDoc.getPage(this.pageNum)]: either
    the cycle ends in [catch]/[finally], or it reaches the library call of
    [renderTextContent] and suspends there. *)
Definition renderCurrentPage_gotPage (cycle : nat) (r : Result PDFPageProxy)
    (w : World) : World :=
  match r with
  | Rejected e =>
      renderCurrentPage_finally cycle (renderCurrentPage_catch e w)
  | Resolved pg =>
      let w := call_pdfjs (GetViewport (scale (this w))) w in
      match getViewport pg with
      | Rejected e =>
          renderCurrentPage_finally cycle (renderCurrentPage_catch e w)
      | Resolved viewport =>
          let '(pageWrapper, textContainer', b) :=
            build_page (pageNum (this w)) (page w) in
          let w := on_page (fun _ => b) w in
          let w := on_this (set_textContainer (Some textContainer')) w in
          let w := call_pdfjs (GetTextContent textContentParams) w in
          suspend (RenderGettingText cycle pageWrapper) w
      end
  end.

(** The [forEach] callback of lines 188-214 on one processed item. *)
Definition append_text_item (container : nat) (b : Browser) (item : TextItem)
  : Browser :=
  let '(textSpan, b) := createElement "span" "text-item" b in
  let b := set_textContent textSpan (str item) b in
  appendChild container textSpan b.

(** The continuation of [await page.getTextContent(...)] inside
    [renderTextContent] (lines 174-218).  Errors are caught there, so
    [renderTextContent] always returns normally. *)
Definition renderTextContent_gotText (r : Result (list TextItem)) (w : World)
  : World :=
  match r with
  | Rejected e => console_error "Error rendering text content:" e w
  | Resolved items =>
      let processedItems := processItem <$> items in
      let text := concat (str <$> processedItems) in
      let w := console_log "" text w in
      match textContainer (this w), processedItems with
      | Some container, _ =>
          on_page (fun b => foldl (append_text_item container) b processedItems) w
      | None, [] => w
      | None, item :: _ =>
          (* [this.textContainer] is null: the first [appendChild] throws *)
          let '(textSpan, b) := createElement "span" "text-item" (page w) in
          let b := set_textContent textSpan (str item) b in
          console_error "Error rendering text content:" "TypeError"
            (on_page (fun _ => b) w)
      end
  end.

(** Lines 149-162: [renderTextContent] has returned. *)
Definition renderCurrentPage_rendered (cycle pageWrapper : nat) (w : World)
  : World :=
  let w := on_page (container_appendChild pageWrapper) w in
  renderCurrentPage_finally cycle w.

(** ** loadPDF (lines 75-99) *)

Record File := { fileName : string }.

Definition loadPDF (file : option File) (w : World) : World :=
  match file with
  | None => w
  | Some _ => suspend LoadReadingFile w
  end.

(** The [catch] block (lines 95-98). *)
Definition loadPDF_catch (e : Error) (w : World) : World :=
  let w := console_error "Error loading PDF:" e w in
  alert "Error loading PDF file. Please try another file." w.

(** The continuation of [await this.fileToArrayBuffer(file)]. *)
Definition loadPDF_gotBuffer (r : Result (list byte)) (w : World) : World :=
  match r with
  | Rejected e => loadPDF_catch e w
  | Resolved arrayBuffer =>
      let init :=
        {| data := arrayBuffer; disableFontFace := false;
           useSystemFonts := true |} in
      suspend LoadOpeningDocument (call_pdfjs (GetDocument init) w)
  end.

(** The continuation of [await loadingTask.promise]. *)
Definition loadPDF_gotDocument (r : Result PDFDocumentProxy) (w : World)
  : World :=
  match r with
  | Rejected e => loadPDF_catch e w
  | Resolved doc =>
      let w := on_this (set_pdfDoc (Some doc)) w in
      let w := on_this (set_pageNum 1) w in
      let '(w, promise) := renderCurrentPage w in
      suspend (LoadAwaitingRender promise) w
  end.

(** The continuation of [await this.renderCurrentPage()]. *)
Definition loadPDF_rendered (w : World) : World := updateUI w.

(** ** The constructor and the event loop *)

Definition constructor (b : Browser) : World :=
  let w :=
    {| this :=
         {| pdfDoc := None; pageNum := 1; pageRendering := false;
            pageNumPending := None; scale := 3 # 2; textContainer := None |};
       page := b; frames := []; pdfjs := []; cycles := 0 |} in
  let w := on_page initDarkMode w in
  updateUI w.

Inductive Event :=
(* listeners installed by initEventListeners *)
| FileChosen (file : option File)
| PrevClicked
| NextClicked
| MouseUp (selection : jsstring)
| DarkModeToggleClicked
(* promises settling; [i] is the position of the waiting frame *)
| FileRead (i : nat) (r : Result (list byte))
| DocumentOpened (i : nat) (r : Result PDFDocumentProxy)
| LoadResumed (i : nat)
| PageFetched (i : nat) (r : Result PDFPageProxy)
| TextFetched (i : nat) (r : Result (list TextItem))
| RenderResumed (i : nat).

(** Take frame [i] out of the pool. *)
Definition resume (i : nat) (w : World) : option (Frame * World) :=
  match frames w !! i with
  | Some f => Some (f, set_frames (delete i (frames w)) w)
  | None => None
  end.

(** One run-to-completion block; [None] when the event cannot happen in
    this world (no such frame, or a frame waiting for something else). *)
Definition step (e : Event) (w : World) : option World :=
  match e with
  | FileChosen file => Some (loadPDF file w)
  | PrevClicked => Some (navigateToPage (pageNum (this w) - 1) w)
  | NextClicked => Some (navigateToPage (pageNum (this w) + 1) w)
  | MouseUp selection =>
      let selectedText := trim selection in
      Some (match selectedText with
            | [] => w
            | _ => console_log "Selected text:" selectedText w
            end)
  | DarkModeToggleClicked => Some (on_page toggleDarkMode w)
  | FileRead i r =>
      match resume i w with
      | Some (LoadReadingFile, w) => Some (loadPDF_gotBuffer r w)
      | _ => None
      end
  | DocumentOpened i r =>
      match resume i w with
      | Some (LoadOpeningDocument, w) => Some (loadPDF_gotDocument r w)
      | _ => None
      end
  | LoadResumed i =>
      match resume i w with
      | Some (LoadAwaitingRender None, w) => Some (loadPDF_rendered w)
      | _ => None
      end
  | PageFetched i r =>
      match resume i w with
      | Some (RenderGettingPage cycle, w) =>
          Some (renderCurrentPage_gotPage cycle r w)
      | _ => None
      end
  | TextFetched i r =>
      match resume i w with
      | Some (RenderGettingText cycle pageWrapper, w) =>
          Some (suspend (RenderTextReturned cycle pageWrapper)
                  (renderTextContent_gotText r w))
      | _ => None
      end
  | RenderResumed i =>
      match resume i w with
      | Some (RenderTextReturned cycle pageWrapper, w) =>
          Some (renderCurrentPage_rendered cycle pageWrapper w)
      | _ => None
      end
  end.

Fixpoint run (es : list Event) (w : World) : option World :=
  match es with
  | [] => Some w
  | e :: es' =>
      match step e w with
      | Some w' => run es' w'
      | None => None
      end
  end.

(** Worlds the script can be in, for a page that looked like [b] when the
    script started. *)
Inductive reachable (b : Browser) : World -> Prop :=
| reachable_start : reachable b (constructor b)
| reachable_step w e w' :
    reachable b w -> step e w = Some w' -> reachable b w'.

(** * Properties *)

(** ** Fixtures: a concrete page, document and text run *)

Module Fixture.
(** A page whose body has no class, with empty storage and container. *)
Definition blank : Browser :=
  {| nodes := ∅; nextNode := 0; pdfContainer := []; pageInfo := [];
     prevPage_disabled := false; nextPage_disabled := false;
     bodyClassList := ∅; darkModeToggle := []; localStorage := ∅;
     console := []; alerts := [] |}.

Definition doc3 : PDFDocumentProxy := {| numPages := 3 |}.

Definition page_ok : PDFPageProxy :=
  {| getViewport := Resolved (Viewport 0) |}.

Definition some_file : File := {| fileName := "a.pdf" |}.

(** A document of three pages has just been opened: its first page is being
    fetched and [loadPDF] waits for that render. *)
Definition opening : list Event :=
  [FileChosen (Some some_file); FileRead 0 (Resolved []);
   DocumentOpened 0 (Resolved doc3)].

(** ... and that first render has run to its end. *)
Definition first_render : list Event :=
  [PageFetched 0 (Resolved page_ok); TextFetched 1 (Resolved []);
   RenderResumed 1; LoadResumed 0].

Definition after (es : list Event) : World :=
  default (constructor blank) (run es (constructor blank)).

Definition rendering : World := after opening.
Definition idle : World := after (opening ++ first_render).
End Fixture.

(** Case analysis on the frame a resumption takes out of the pool. *)
Ltac take_frame H i w :=
  unfold resume in H;
  let f := fresh "f" in
  let Hf := fresh "Hf" in
  destruct (frames w !! i) as [f|] eqn:Hf; [destruct f as [| |[?|]| | |]|];
  try discriminate H.

(** ** Runs stay among the reachable worlds *)

Lemma run_reachable b es : forall w w',
  reachable b w -> run es w = Some w' -> reachable b w'.
Proof.
  induction es as [|e es IH]; intros w w' Hw Hrun; simpl in Hrun.
  - by inversion Hrun; subst.
  - destruct (step e w) as [w1|] eqn:He; [|done].
    eapply IH; [|exact Hrun]. by eapply reachable_step.
Qed.

Lemma after_reachable es w :
  run es (constructor Fixture.blank) = Some w ->
  reachable Fixture.blank (Fixture.after es).
Proof.
  intros Hrun. unfold Fixture.after. rewrite Hrun. simpl.
  eapply run_reachable; [apply reachable_start | exact Hrun].
Qed.

(** ** The text run post-processor *)

Section TextRuns.

(** What becomes of one code unit of a run. *)
Definition remap_code_unit (c : N) : jsstring :=
  if N.eqb c Dash.en_dash then Dash.en_dash_literal
  else if N.eqb c Dash.em_dash then Dash.em_dash_literal
  else if N.eqb c Dash.figure_dash then Dash.figure_dash_literal
  else [c].

(** The claim's words: the en dash is substituted, every other character of
    the run is kept. *)
Definition only_en_dash_substituted (s : jsstring) : jsstring :=
  replace_all Dash.en_dash Dash.en_dash_literal s.

Lemma replace_all_app c r s t :
  replace_all c r (s ++ t) = replace_all c r s ++ replace_all c r t.
Proof. unfold replace_all. apply flat_map_app. Qed.

Lemma replace_all_cons c r x s :
  replace_all c r (x :: s)
  = (if N.eqb x c then r else [x]) ++ replace_all c r s.
Proof. reflexivity. Qed.

Lemma replace_all_singleton c r x :
  replace_all c r [x] = if N.eqb x c then r else [x].
Proof. unfold replace_all. simpl. apply app_nil_r. Qed.

Lemma remap_dashes_cons c s :
  remap_dashes (c :: s) = remap_code_unit c ++ remap_dashes s.
Proof.
  unfold remap_dashes, remap_code_unit.
  change (c :: s) with ([c] ++ s).
  rewrite !replace_all_app. f_equal.
  rewrite (replace_all_singleton Dash.en_dash).
  destruct (N.eqb c Dash.en_dash); [reflexivity|].
  rewrite (replace_all_singleton Dash.em_dash).
  destruct (N.eqb c Dash.em_dash); [reflexivity|].
  apply replace_all_singleton.
Qed.

(** C7 (as amended).  Post-processing works code unit by code unit, in
    order: each en dash (U+2013) becomes its fixed replacement sequence, each
    em dash (U+2014) and each figure dash (U+2012) becomes its own, and every
    other code unit of the run is copied unchanged.  The processed item keeps
    the run's other fields. *)
Theorem remap_dashes_code_units (item : TextItem) :
  str (processItem item) = flat_map remap_code_unit (str item)
  /\ transform (processItem item) = transform item
  /\ (forall c, c <> Dash.en_dash -> c <> Dash.em_dash ->
                c <> Dash.figure_dash -> remap_code_unit c = [c])
  /\ remap_code_unit Dash.en_dash = Dash.en_dash_literal.
Proof.
  split; [|split; [reflexivity|split; [|reflexivity]]].
  - simpl. induction (str item) as [|c s IH]; [reflexivity|].
    rewrite remap_dashes_cons, IH. reflexivity.
  - intros c Hen Hem Hfig. unfold remap_code_unit.
    destruct (N.eqb_spec c Dash.en_dash); [done|].
    destruct (N.eqb_spec c Dash.em_dash); [done|].
    by destruct (N.eqb_spec c Dash.figure_dash).
Qed.

(** On a run without em and figure dashes the claim's reading is exact. *)
Lemma remap_dashes_only_en_dash s :
  Dash.em_dash ∉ s -> Dash.figure_dash ∉ s ->
  remap_dashes s = only_en_dash_substituted s.
Proof.
  induction s as [|c s IH]; intros Hem Hfig; [reflexivity|].
  rewrite remap_dashes_cons, IH by set_solver.
  unfold only_en_dash_substituted. rewrite replace_all_cons.
  f_equal. unfold remap_code_unit.
  destruct (N.eqb c Dash.en_dash); [reflexivity|].
  destruct (N.eqb_spec c Dash.em_dash); [set_solver|].
  destruct (N.eqb_spec c Dash.figure_dash); [set_solver|reflexivity].
Qed.

(** C7, counterexample: the run "A", en dash, em dash contains an en dash,
    and its em dash does not come out unchanged. *)
Lemma remap_dashes_changes_em_dash :
  Dash.en_dash ∈ [0x41; 0x2013; 0x2014]%N
  /\ remap_dashes [0x41; 0x2013; 0x2014]%N
     <> only_en_dash_substituted [0x41; 0x2013; 0x2014]%N.
Proof. split; [set_solver|]. vm_compute. discriminate. Qed.

End TextRuns.

(** ** The UI state reflector *)

Section Reflector.

(** [updateUI] writes the three controls and nothing else. *)
Lemma updateUI_frame w :
  this (updateUI w) = this w /\ frames (updateUI w) = frames w
  /\ pdfjs (updateUI w) = pdfjs w /\ cycles (updateUI w) = cycles w
  /\ nodes (page (updateUI w)) = nodes (page w)
  /\ nextNode (page (updateUI w)) = nextNode (page w)
  /\ pdfContainer (page (updateUI w)) = pdfContainer (page w)
  /\ bodyClassList (page (updateUI w)) = bodyClassList (page w)
  /\ darkModeToggle (page (updateUI w)) = darkModeToggle (page w)
  /\ localStorage (page (updateUI w)) = localStorage (page w)
  /\ console (page (updateUI w)) = console (page w)
  /\ alerts (page (updateUI w)) = alerts (page w).
Proof. unfold updateUI. by destruct (pdfDoc (this w)). Qed.

(** C6 (as amended).  [updateUI] changes the page-info text and the two
    [disabled] flags and leaves the rest of the world alone.  Without a
    document the text is "No PDF loaded" and both buttons are disabled; with
    a document of N pages at page X the text is "Page X of N", the previous
    button is disabled iff X <= 1 and the next button iff X >= N. *)
Theorem updateUI_reflects (w : World) :
  match pdfDoc (this w) with
  | None =>
      pageInfo (page (updateUI w)) = lit "No PDF loaded"
      /\ prevPage_disabled (page (updateUI w)) = true
      /\ nextPage_disabled (page (updateUI w)) = true
  | Some doc =>
      pageInfo (page (updateUI w))
      = lit "Page " ++ ToString (pageNum (this w)) ++ lit " of "
          ++ ToString (numPages doc)
      /\ (prevPage_disabled (page (updateUI w)) = true
          <-> pageNum (this w) <= 1)
      /\ (nextPage_disabled (page (updateUI w)) = true
          <-> pageNum (this w) >= numPages doc)
  end
  /\ this (updateUI w) = this w /\ frames (updateUI w) = frames w
  /\ pdfjs (updateUI w) = pdfjs w /\ cycles (updateUI w) = cycles w
  /\ nodes (page (updateUI w)) = nodes (page w)
  /\ nextNode (page (updateUI w)) = nextNode (page w)
  /\ pdfContainer (page (updateUI w)) = pdfContainer (page w)
  /\ bodyClassList (page (updateUI w)) = bodyClassList (page w)
  /\ darkModeToggle (page (updateUI w)) = darkModeToggle (page w)
  /\ localStorage (page (updateUI w)) = localStorage (page w)
  /\ console (page (updateUI w)) = console (page w)
  /\ alerts (page (updateUI w)) = alerts (page w).
Proof.
  split; [|apply updateUI_frame].
  unfold updateUI. destruct (pdfDoc (this w)) as [doc|]; simpl.
  - split; [reflexivity|]. split.
    + apply Z.leb_le.
    + rewrite Z.geb_le. lia.
  - done.
Qed.

(** The scenario of the specification: three pages, page 1. *)
Example updateUI_page_1_of_3 :
  pageInfo (page (updateUI Fixture.idle)) = lit "Page 1 of 3"
  /\ prevPage_disabled (page (updateUI Fixture.idle)) = true
  /\ nextPage_disabled (page (updateUI Fixture.idle)) = false.
Proof. by vm_compute. Qed.

(** C6, counterexample: in the world the constructor builds no document is
    loaded, and the page-info text is not "No document loaded". *)
Lemma updateUI_no_document_text :
  pdfDoc (this (constructor Fixture.blank)) = None
  /\ pageInfo (page (updateUI (constructor Fixture.blank)))
     <> lit "No document loaded".
Proof. split; [reflexivity|]. vm_compute. discriminate. Qed.

End Reflector.

(** ** The preference store *)

Section DarkMode.

(** The persisted preference and the body class agree. *)
Definition dark_mode_synced (b : Browser) : Prop :=
  savedDarkMode b = contains_dark_mode b.

Lemma contains_toggle b :
  contains_dark_mode
    (set_bodyClassList (classList_toggle "dark-mode" (bodyClassList b)) b)
  = negb (contains_dark_mode b).
Proof.
  unfold contains_dark_mode, classList_toggle. simpl.
  destruct (bool_decide ("dark-mode"%string ∈ bodyClassList b)) eqn:Hin;
    simpl.
  - apply bool_decide_eq_false. intros [_ Hout]%elem_of_difference.
    apply Hout. by apply elem_of_singleton.
  - apply bool_decide_eq_true, elem_of_union. right.
    by apply elem_of_singleton.
Qed.

Lemma toggleDarkMode_contains b :
  contains_dark_mode (toggleDarkMode b) = negb (contains_dark_mode b).
Proof. unfold toggleDarkMode. rewrite <- contains_toggle. reflexivity. Qed.

Lemma toggleDarkMode_stored b :
  localStorage (toggleDarkMode b) !! "darkMode"%string
  = Some (bool_to_string (contains_dark_mode (toggleDarkMode b))).
Proof.
  rewrite toggleDarkMode_contains. unfold toggleDarkMode. simpl.
  rewrite lookup_insert_eq. f_equal. f_equal. apply contains_toggle.
Qed.

Lemma toggleDarkMode_saved b :
  savedDarkMode (toggleDarkMode b) = contains_dark_mode (toggleDarkMode b).
Proof.
  unfold savedDarkMode. rewrite toggleDarkMode_stored.
  by destruct (contains_dark_mode (toggleDarkMode b)).
Qed.

Lemma toggleDarkMode_glyph b :
  darkModeToggle (toggleDarkMode b)
  = if contains_dark_mode (toggleDarkMode b) then Glyph.sun else Glyph.moon.
Proof. reflexivity. Qed.

(** C9 (as amended).  From any state, two toggles restore the body's class
    membership and leave the persisted boolean equal to the class membership
    the start had; so the persisted boolean is back at its first value
    exactly when it agreed with the class membership at the start.  After
    each toggle the stored string is the boolean of the class membership,
    which has flipped, and the button shows the sun when dark mode is active
    and the moon otherwise. *)
Theorem toggleDarkMode_twice (b : Browser) :
  let b1 := toggleDarkMode b in
  let b2 := toggleDarkMode b1 in
  contains_dark_mode b2 = contains_dark_mode b
  /\ savedDarkMode b2 = contains_dark_mode b
  /\ (savedDarkMode b2 = savedDarkMode b <-> dark_mode_synced b)
  /\ (contains_dark_mode b1 = negb (contains_dark_mode b)
      /\ localStorage b1 !! "darkMode"%string
         = Some (bool_to_string (contains_dark_mode b1))
      /\ savedDarkMode b1 = contains_dark_mode b1
      /\ darkModeToggle b1
         = if contains_dark_mode b1 then Glyph.sun else Glyph.moon)
  /\ (contains_dark_mode b2 = negb (contains_dark_mode b1)
      /\ localStorage b2 !! "darkMode"%string
         = Some (bool_to_string (contains_dark_mode b2))
      /\ savedDarkMode b2 = contains_dark_mode b2
      /\ darkModeToggle b2
         = if contains_dark_mode b2 then Glyph.sun else Glyph.moon).
Proof.
  intros b1 b2. subst b1 b2.
  assert (contains_dark_mode (toggleDarkMode (toggleDarkMode b))
          = contains_dark_mode b) as Hclass
    by (by rewrite !toggleDarkMode_contains, negb_involutive).
  assert (savedDarkMode (toggleDarkMode (toggleDarkMode b))
          = contains_dark_mode b) as Hsaved
    by (by rewrite toggleDarkMode_saved).
  split; [exact Hclass|]. split; [exact Hsaved|]. split.
  - unfold dark_mode_synced. rewrite Hsaved. split; congruence.
  - repeat split;
      auto using toggleDarkMode_contains, toggleDarkMode_stored,
        toggleDarkMode_saved.
Qed.

(** A page whose markup puts the class on the body, with empty storage. *)
Definition dark_body : Browser :=
  set_bodyClassList {["dark-mode"%string]} Fixture.blank.

(** C9, counterexample: the script starts on a page whose body carries the
    class while nothing is stored.  The constructor leaves the class on, the
    persisted boolean reads false, and after two toggles it reads true. *)
Lemma toggleDarkMode_twice_changes_preference :
  reachable dark_body (constructor dark_body)
  /\ contains_dark_mode (page (constructor dark_body)) = true
  /\ savedDarkMode (page (constructor dark_body)) = false
  /\ savedDarkMode
       (toggleDarkMode (toggleDarkMode (page (constructor dark_body))))
     <> savedDarkMode (page (constructor dark_body)).
Proof.
  split; [apply reachable_start|].
  split; [vm_compute; reflexivity|]. split; [vm_compute; reflexivity|].
  vm_compute. discriminate.
Qed.

(** Startup leaves the two in agreement when the page's body does not carry
    the class already, and every toggle does. *)
Lemma initDarkMode_synced b :
  "dark-mode"%string ∉ bodyClassList b -> dark_mode_synced (initDarkMode b).
Proof.
  intros Hno. unfold dark_mode_synced, initDarkMode, savedDarkMode,
    contains_dark_mode.
  destruct (bool_decide (localStorage b !! "darkMode"%string = Some "true"%string))
    eqn:Hsaved; simpl; rewrite Hsaved; symmetry.
  - apply bool_decide_eq_true. set_solver.
  - by apply bool_decide_eq_false.
Qed.

Lemma toggleDarkMode_synced b : dark_mode_synced (toggleDarkMode b).
Proof. apply toggleDarkMode_saved. Qed.

End DarkMode.

(** ** The navigation controller *)

Section Navigation.

(** The pages the reader asked the library for, oldest first: one per
    render cycle. *)
Definition page_requests (w : World) : list Z :=
  omap (fun c => match c with GetPage n => Some n | _ => None end) (pdfjs w).

(** C10.  Without a document handle, [navigateToPage] returns the world as
    it was, whatever page is asked for, and so does [renderCurrentPage]: it
    starts no cycle (its promise is already resolved), asks the library for
    nothing and leaves the rendering flag as it was. *)
Theorem no_document_no_op (w : World) (P : Z) :
  pdfDoc (this w) = None ->
  navigateToPage P w = w
  /\ renderCurrentPage w = (w, None)
  /\ pageRendering (this (fst (renderCurrentPage w))) = pageRendering (this w)
  /\ frames (fst (renderCurrentPage w)) = frames w
  /\ pdfjs (fst (renderCurrentPage w)) = pdfjs w.
Proof.
  intros Hdoc. unfold navigateToPage, renderCurrentPage. by rewrite Hdoc.
Qed.

Lemma no_document_no_op_fresh :
  navigateToPage 1 (constructor Fixture.blank) = constructor Fixture.blank
  /\ renderCurrentPage (constructor Fixture.blank)
     = (constructor Fixture.blank, None)
  /\ pageRendering (this (fst (renderCurrentPage (constructor Fixture.blank))))
     = pageRendering (this (constructor Fixture.blank))
  /\ frames (fst (renderCurrentPage (constructor Fixture.blank)))
     = frames (constructor Fixture.blank)
  /\ pdfjs (fst (renderCurrentPage (constructor Fixture.blank)))
     = pdfjs (constructor Fixture.blank).
Proof. apply (no_document_no_op (constructor Fixture.blank) 1). reflexivity. Defined.

(** What a call of [navigateToPage] that passes its three guards does. *)
Lemma navigateToPage_starts w doc P :
  pdfDoc (this w) = Some doc -> pageRendering (this w) = false ->
  1 <= P <= numPages doc ->
  navigateToPage P w
  = updateUI (fst (renderCurrentPage (on_this (set_pageNum P) w)))
  /\ pageNum (this (navigateToPage P w)) = P
  /\ pageRendering (this (navigateToPage P w)) = true
  /\ pageNumPending (this (navigateToPage P w)) = pageNumPending (this w)
  /\ pdfDoc (this (navigateToPage P w)) = Some doc
  /\ pdfjs (navigateToPage P w) = pdfjs w ++ [GetPage P]
  /\ cycles (navigateToPage P w) = S (cycles w)
  /\ frames (navigateToPage P w) = frames w ++ [RenderGettingPage (cycles w)]
  /\ console (page (navigateToPage P w)) = console (page w)
  /\ alerts (page (navigateToPage P w)) = alerts (page w).
Proof.
  intros Hdoc Hidle [Hlo Hhi]. unfold navigateToPage. rewrite Hdoc, Hidle.
  replace (P <? 1) with false by (symmetry; apply Z.ltb_ge; lia).
  replace (P >? numPages doc) with false by (rewrite Z.gtb_ltb; symmetry; apply Z.ltb_ge; lia).
  simpl. unfold renderCurrentPage. simpl. rewrite Hdoc, Hidle. simpl.
  unfold updateUI. simpl. rewrite Hdoc. by simpl.
Qed.

Lemma navigateToPage_out_of_range w doc P :
  pdfDoc (this w) = Some doc -> P < 1 \/ P > numPages doc ->
  navigateToPage P w = w.
Proof.
  intros Hdoc Hout. unfold navigateToPage. rewrite Hdoc.
  destruct (Z.ltb_spec P 1); [reflexivity|].
  rewrite Z.gtb_ltb. destruct (Z.ltb_spec (numPages doc) P); [reflexivity|lia].
Qed.

Lemma navigateToPage_queues w doc P :
  pdfDoc (this w) = Some doc -> pageRendering (this w) = true ->
  1 <= P <= numPages doc ->
  navigateToPage P w = on_this (set_pageNumPending (Some P)) w.
Proof.
  intros Hdoc Hbusy [Hlo Hhi]. unfold navigateToPage. rewrite Hdoc, Hbusy.
  replace (P <? 1) with false by (symmetry; apply Z.ltb_ge; lia).
  replace (P >? numPages doc) with false by (rewrite Z.gtb_ltb; symmetry; apply Z.ltb_ge; lia).
  reflexivity.
Qed.

(** C1.  With a document of N pages loaded and no render in progress,
    [navigateToPage P] makes P the current page when 1 <= P <= N (and starts
    the render of P); for P < 1 or P > N it returns the world unchanged: no
    field of the reader, no control, no console line, no alert. *)
Theorem navigateToPage_idle (w : World) (doc : PDFDocumentProxy) (P : Z) :
  pdfDoc (this w) = Some doc ->
  pageRendering (this w) = false ->
  (1 <= P <= numPages doc ->
     pageNum (this (navigateToPage P w)) = P
     /\ page_requests (navigateToPage P w) = page_requests w ++ [P]
     /\ console (page (navigateToPage P w)) = console (page w)
     /\ alerts (page (navigateToPage P w)) = alerts (page w))
  /\ (P < 1 \/ P > numPages doc -> navigateToPage P w = w).
Proof.
  intros Hdoc Hidle. split.
  - intros HP.
    destruct (navigateToPage_starts w doc P Hdoc Hidle HP)
      as (_ & Hnum & _ & _ & _ & Hcalls & _ & _ & Hcon & Hal).
    repeat split; try assumption.
    unfold page_requests. rewrite Hcalls, omap_app. reflexivity.
  - by apply navigateToPage_out_of_range.
Qed.

(** *** What the pieces of a step do to the navigation state *)

(** The fields the navigation controller works on, with the trace of page
    requests and the count of render cycles. *)
Record NavState := {
  nav_doc : option PDFDocumentProxy;
  nav_page : Z;
  nav_rendering : bool;
  nav_pending : option Z;
  nav_requests : list Z;
  nav_cycles : nat
}.

Definition nav (w : World) : NavState :=
  {| nav_doc := pdfDoc (this w); nav_page := pageNum (this w);
     nav_rendering := pageRendering (this w);
     nav_pending := pageNumPending (this w);
     nav_requests := page_requests w; nav_cycles := cycles w |}.

Lemma nav_settle c w : nav (settle c w) = nav w.
Proof. reflexivity. Qed.

Lemma nav_suspend f w : nav (suspend f w) = nav w.
Proof. reflexivity. Qed.

Lemma nav_set_frames l w : nav (set_frames l w) = nav w.
Proof. reflexivity. Qed.

Lemma nav_on_page f w : nav (on_page f w) = nav w.
Proof. reflexivity. Qed.

Lemma nav_updateUI w : nav (updateUI w) = nav w.
Proof. unfold updateUI. by destruct (pdfDoc (this w)). Qed.

Lemma nav_loadPDF_catch e w : nav (loadPDF_catch e w) = nav w.
Proof. reflexivity. Qed.

Lemma nav_renderTextContent_gotText r w :
  nav (renderTextContent_gotText r w) = nav w.
Proof.
  unfold renderTextContent_gotText. destruct r as [items|e]; [|reflexivity].
  simpl. destruct (textContainer (this w)); [reflexivity|].
  destruct (processItem <$> items); reflexivity.
Qed.

Lemma page_requests_call c w :
  page_requests (call_pdfjs c w)
  = page_requests w ++ match c with GetPage n => [n] | _ => [] end.
Proof.
  unfold page_requests. simpl. rewrite omap_app.
  destruct c; simpl; by rewrite ?app_nil_r.
Qed.

(** The page was fetched and its viewport computed: the cycle goes on. *)
Lemma nav_renderCurrentPage_gotPage c pg v w :
  getViewport pg = Resolved v ->
  nav (renderCurrentPage_gotPage c (Resolved pg) w) = nav w.
Proof.
  intros Hv. unfold renderCurrentPage_gotPage. rewrite Hv.
  destruct (build_page _ _) as [[pw tc] b'].
  unfold nav. simpl.
  unfold page_requests. simpl. rewrite !omap_app. simpl.
  by rewrite !app_nil_r.
Qed.

(** The [finally] block: the pending slot is emptied, and either the flag
    is down and nothing was started, or the slot held a page that is valid
    for the document and exactly one cycle was started, for that page. *)
Lemma nav_finally c w :
  nav_pending (nav (renderCurrentPage_finally c w)) = None
  /\ nav_doc (nav (renderCurrentPage_finally c w)) = nav_doc (nav w)
  /\ ((nav_rendering (nav (renderCurrentPage_finally c w)) = false
       /\ nav_page (nav (renderCurrentPage_finally c w)) = nav_page (nav w)
       /\ nav_requests (nav (renderCurrentPage_finally c w))
          = nav_requests (nav w)
       /\ nav_cycles (nav (renderCurrentPage_finally c w)) = nav_cycles (nav w)
       /\ (forall P doc, nav_pending (nav w) = Some P ->
             nav_doc (nav w) = Some doc -> ~ 1 <= P <= numPages doc))
      \/ (exists P doc,
            nav_pending (nav w) = Some P /\ nav_doc (nav w) = Some doc
            /\ 1 <= P <= numPages doc
            /\ nav_rendering (nav (renderCurrentPage_finally c w)) = true
            /\ nav_page (nav (renderCurrentPage_finally c w)) = P
            /\ nav_requests (nav (renderCurrentPage_finally c w))
               = nav_requests (nav w) ++ [P]
            /\ nav_cycles (nav (renderCurrentPage_finally c w))
               = S (nav_cycles (nav w)))).
Proof.
  unfold renderCurrentPage_finally. rewrite nav_settle.
  destruct (pageNumPending (this (on_this (set_pageRendering false) w)))
    as [P|] eqn:Hpend; simpl in Hpend.
  - set (w0 := on_this (set_pageNumPending None)
                 (on_this (set_pageRendering false) w)).
    destruct (pdfDoc (this w)) as [doc|] eqn:Hdoc.
    + destruct (decide (1 <= P <= numPages doc)) as [HP|HP].
      * destruct (navigateToPage_starts w0 doc P Hdoc eq_refl HP)
          as (_ & Hnum & Hflag & Hpe & Hd & Hcalls & Hcyc & _).
        unfold nav; simpl. rewrite Hpe, Hd, Hdoc.
        split; [reflexivity|]. split; [reflexivity|]. right.
        exists P, doc. repeat split; try assumption; try lia.
        unfold page_requests. rewrite Hcalls, omap_app. reflexivity.
      * rewrite (navigateToPage_out_of_range w0 doc P Hdoc) by lia.
        unfold nav; simpl. rewrite Hdoc.
        split; [reflexivity|]. split; [reflexivity|]. left.
        repeat split. intros P' doc' HP' Hdoc'. congruence.
    + assert (navigateToPage P w0 = w0) as ->.
      { unfold navigateToPage. subst w0. simpl. by rewrite Hdoc. }
      unfold nav; simpl. rewrite Hdoc.
      split; [reflexivity|]. split; [reflexivity|]. left.
      repeat split. intros P' doc' _ Hdoc'. discriminate.
  - unfold nav; simpl. rewrite Hpend.
    split; [reflexivity|]. split; [reflexivity|]. left.
    repeat split. intros P' doc' HP' _. discriminate.
Qed.

(** *** The events that end a render cycle *)

(** The error that sends a cycle into its [catch] block: [getPage] rejects,
    or [getViewport] throws. *)
Definition render_error (e : Event) : option Error :=
  match e with
  | PageFetched _ (Rejected err) => Some err
  | PageFetched _ (Resolved pg) =>
      match getViewport pg with
      | Rejected err => Some err
      | Resolved _ => None
      end
  | _ => None
  end.

(** The events whose step runs the [finally] block: the failures above, and
    the resumption after [renderTextContent] has returned. *)
Definition ends_render (e : Event) : bool :=
  match e with
  | RenderResumed _ => true
  | _ => match render_error e with Some _ => true | None => false end
  end.

Definition is_render_frame (f : Frame) : bool :=
  match f with
  | RenderGettingPage _ | RenderGettingText _ _ | RenderTextReturned _ _ =>
      true
  | _ => false
  end.

Definition cycle_of (f : Frame) : option nat :=
  match f with
  | RenderGettingPage c | RenderGettingText c _ | RenderTextReturned c _ =>
      Some c
  | _ => None
  end.

(** A step that ends a cycle is the [finally] block run after a body that
    left the navigation state alone, logged the error if there was one, and
    on an error did not touch the container. *)
Lemma ends_render_step e w w' :
  ends_render e = true -> step e w = Some w' ->
  exists i f c w0,
    frames w !! i = Some f /\ cycle_of f = Some c
    /\ w' = renderCurrentPage_finally c w0
    /\ nav w0 = nav w
    /\ frames w0 = delete i (frames w)
    /\ console (page w0)
       = console (page w)
           ++ match render_error e with
              | Some err => [ConsoleError "Error rendering page:" err]
              | None => []
              end
    /\ alerts (page w0) = alerts (page w)
    /\ (is_Some (render_error e) ->
          pdfContainer (page w0) = pdfContainer (page w)
          /\ nodes (page w0) = nodes (page w)).
Proof.
  intros Hend Hstep.
  destruct e as [| | | | | | | |i r| |i]; try discriminate Hend;
    simpl in Hstep; take_frame Hstep i w; inversion Hstep; subst; clear Hstep.
  - exists i, (RenderGettingPage cycle).
    destruct r as [pg|err]; cbn [ends_render render_error] in Hend |- *.
    + destruct (getViewport pg) as [v|err] eqn:Hv; [discriminate|].
      unfold renderCurrentPage_gotPage. rewrite ?Hv.
      eexists _, _. split; [exact Hf|]. split; [reflexivity|].
      split; [reflexivity|]. simpl.
      split; [|by repeat split].
      unfold nav. simpl. unfold page_requests. simpl.
      by rewrite omap_app, app_nil_r.
    + eexists _, _. split; [exact Hf|]. split; [reflexivity|].
      split; [reflexivity|]. by repeat split.
  - exists i, (RenderTextReturned cycle pageWrapper).
    unfold renderCurrentPage_rendered.
    eexists _, _. split; [exact Hf|]. split; [reflexivity|].
    split; [reflexivity|]. simpl. rewrite app_nil_r.
    do 4 (split; [reflexivity|]). intros [? ?]; discriminate.
Qed.

(** Neither [navigateToPage] nor the [finally] block writes to the console,
    raises an alert or touches the container. *)
Lemma navigateToPage_quiet P w :
  console (page (navigateToPage P w)) = console (page w)
  /\ alerts (page (navigateToPage P w)) = alerts (page w)
  /\ pdfContainer (page (navigateToPage P w)) = pdfContainer (page w)
  /\ nodes (page (navigateToPage P w)) = nodes (page w)
  /\ pdfDoc (this (navigateToPage P w)) = pdfDoc (this w).
Proof.
  unfold navigateToPage. destruct (pdfDoc (this w)) as [doc|] eqn:Hdoc; [|done].
  destruct (_ || _); [done|].
  destruct (pageRendering (this w)) eqn:Hflag; [done|].
  unfold renderCurrentPage. simpl. rewrite Hdoc, Hflag. simpl.
  unfold updateUI. simpl. rewrite Hdoc. by simpl.
Qed.

Lemma finally_quiet c w :
  console (page (renderCurrentPage_finally c w)) = console (page w)
  /\ alerts (page (renderCurrentPage_finally c w)) = alerts (page w)
  /\ pdfContainer (page (renderCurrentPage_finally c w))
     = pdfContainer (page w)
  /\ nodes (page (renderCurrentPage_finally c w)) = nodes (page w).
Proof.
  unfold renderCurrentPage_finally. simpl.
  destruct (pageNumPending (this w)) as [P|]; [|done].
  destruct (navigateToPage_quiet P
              (on_this (set_pageNumPending None)
                 (on_this (set_pageRendering false) w)))
    as (-> & -> & -> & -> & _).
  done.
Qed.

(** *** Events that leave the navigation state alone *)

(** Everything but a click on a navigation button, the opening of a new
    document and the end of a render cycle. *)
Definition quiet (e : Event) : bool :=
  match e with
  | PrevClicked | NextClicked => false
  | DocumentOpened _ (Resolved _) => false
  | _ => negb (ends_render e)
  end.

Lemma quiet_step e w w' :
  quiet e = true -> step e w = Some w' -> nav w' = nav w.
Proof.
  intros Hq Hstep.
  destruct e as [file| | |sel| |i r|i r|i|i r|i r|i]; try discriminate Hq;
    simpl in Hstep.
  - inversion Hstep; subst. by destruct file.
  - inversion Hstep; subst. by destruct (trim sel).
  - by inversion Hstep; subst.
  - take_frame Hstep i w. inversion Hstep; subst; clear Hstep.
    destruct r as [buf|err]; [|reflexivity].
    unfold loadPDF_gotBuffer. rewrite nav_suspend.
    unfold nav. simpl. unfold page_requests. simpl.
    by rewrite omap_app, app_nil_r.
  - take_frame Hstep i w. inversion Hstep; subst; clear Hstep.
    destruct r as [doc|err]; [discriminate Hq|reflexivity].
  - take_frame Hstep i w. inversion Hstep; subst; clear Hstep.
    unfold loadPDF_rendered. by rewrite nav_updateUI.
  - take_frame Hstep i w. inversion Hstep; subst; clear Hstep.
    destruct r as [pg|err]; [|discriminate Hq].
    simpl in Hq. destruct (getViewport pg) as [v|err] eqn:Hv;
      [|discriminate Hq].
    by rewrite (nav_renderCurrentPage_gotPage _ _ v).
  - take_frame Hstep i w. inversion Hstep; subst; clear Hstep.
    by rewrite nav_suspend, nav_renderTextContent_gotText.
Qed.

(** *** Requests made while a render is in progress *)

(** A navigation request (a call of [navigateToPage]) or another event. *)
Inductive Action :=
| Request (P : Z)
| Other (e : Event).

Definition act (a : Action) (w : World) : option World :=
  match a with
  | Request P => Some (navigateToPage P w)
  | Other e => step e w
  end.

Fixpoint perform (acts : list Action) (w : World) : option World :=
  match acts with
  | [] => Some w
  | a :: acts' =>
      match act a w with
      | Some w' => perform acts' w'
      | None => None
      end
  end.

Definition requests (acts : list Action) : list Z :=
  omap (fun a => match a with Request P => Some P | Other _ => None end) acts.

(** The other events that may come between the requests: anything that
    neither navigates, nor replaces the document, nor ends the render. *)
Definition between_requests (a : Action) : bool :=
  match a with
  | Request _ => true
  | Other e => quiet e
  end.

Lemma perform_while_rendering doc acts : forall w w1,
  pdfDoc (this w) = Some doc -> pageRendering (this w) = true ->
  forallb between_requests acts = true ->
  Forall (fun Q => 1 <= Q <= numPages doc) (requests acts) ->
  perform acts w = Some w1 ->
  pdfDoc (this w1) = Some doc /\ pageRendering (this w1) = true
  /\ pageNum (this w1) = pageNum (this w)
  /\ page_requests w1 = page_requests w /\ cycles w1 = cycles w
  /\ pageNumPending (this w1)
     = match last (requests acts) with
       | Some P => Some P
       | None => pageNumPending (this w)
       end.
Proof.
  induction acts as [|a acts IH]; intros w w1 Hdoc Hbusy Hbetween Hvalid Hrun;
    simpl in Hrun.
  - by inversion Hrun; subst.
  - simpl in Hbetween. apply andb_prop in Hbetween as [Ha Hrest].
    destruct (act a w) as [wa|] eqn:Hact; [|discriminate].
    destruct a as [Q|e]; simpl in Hact, Hvalid.
    + apply Forall_cons in Hvalid as [HQ Hvalid].
      inversion Hact; subst; clear Hact.
      rewrite (navigateToPage_queues w doc Q Hdoc Hbusy HQ) in Hrun.
      destruct (IH (on_this (set_pageNumPending (Some Q)) w) w1 Hdoc Hbusy
                  Hrest Hvalid Hrun) as (Hd & Hf & Hn & Hr & Hc & Hp).
      repeat split; try assumption. rewrite Hp. simpl.
      rewrite last_cons. by destruct (last (requests acts)).
    + pose proof (quiet_step e w wa Ha Hact) as Hnav.
      injection Hnav as Hd Hn Hf Hp Hr Hc.
      rewrite Hdoc in Hd. rewrite Hbusy in Hf.
      destruct (IH _ _ Hd Hf Hrest Hvalid Hrun)
        as (Hd' & Hf' & Hn' & Hr' & Hc' & Hp').
      repeat split; try congruence.
      change (requests (Other e :: acts)) with (requests acts).
      rewrite Hp', Hp. reflexivity.
Qed.

(** C2.  A render is in progress.  While valid requests come in (with any
    events between them that do not end the render), no page is asked of the
    library and no cycle starts; the slot holds the latest request.  When
    the step that ends the render runs, exactly one cycle starts, for that
    latest request: it is the one page added to the trace of page requests,
    and it becomes the current page. *)
Theorem requests_coalesce (w : World) (doc : PDFDocumentProxy)
    (acts : list Action) (P : Z) (w1 : World) :
  pdfDoc (this w) = Some doc ->
  pageRendering (this w) = true ->
  forallb between_requests acts = true ->
  Forall (fun Q => 1 <= Q <= numPages doc) (requests acts) ->
  last (requests acts) = Some P ->
  perform acts w = Some w1 ->
  (page_requests w1 = page_requests w /\ cycles w1 = cycles w
   /\ pageRendering (this w1) = true
   /\ pageNum (this w1) = pageNum (this w)
   /\ pageNumPending (this w1) = Some P)
  /\ forall e w2,
       ends_render e = true -> step e w1 = Some w2 ->
       page_requests w2 = page_requests w ++ [P]
       /\ cycles w2 = S (cycles w)
       /\ pageNum (this w2) = P
       /\ pageRendering (this w2) = true
       /\ pageNumPending (this w2) = None.
Proof.
  intros Hdoc Hbusy Hbetween Hvalid Hlast Hrun.
  destruct (perform_while_rendering doc acts w w1 Hdoc Hbusy Hbetween Hvalid
              Hrun) as (Hd & Hf & Hn & Hr & Hc & Hp).
  rewrite Hlast in Hp. split; [by repeat split|].
  intros e w2 Hend Hstep.
  destruct (ends_render_step e w1 w2 Hend Hstep)
    as (i & f & c & w0 & _ & _ & -> & Hnav & _).
  assert (1 <= P <= numPages doc) as HP.
  { apply last_Some_elem_of in Hlast.
    by apply (proj1 (Forall_forall _ _) Hvalid). }
  injection Hnav as Hd0 Hn0 Hf0 Hp0 Hr0 Hc0.
  destruct (nav_finally c w0)
    as (Hpend & _ & [(_ & _ & _ & _ & Hno)|
                     (P' & doc' & HP' & _ & _ & Hflag & Hpage & Hreq & Hcyc)]).
  - exfalso. apply (Hno P doc); simpl; congruence.
  - simpl in *. assert (P' = P) as -> by congruence.
    repeat split; try assumption; congruence.
Qed.

(** *** Invariants of the reachable worlds *)

(** The slot is empty whenever no render is in progress. *)
Definition slot_guarded (w : World) : Prop :=
  pageRendering (this w) = false -> pageNumPending (this w) = None.

Lemma slot_guarded_nav w w' : nav w' = nav w -> slot_guarded w -> slot_guarded w'.
Proof.
  intros Hnav Hinv. injection Hnav as _ _ Hf Hp _ _.
  unfold slot_guarded. rewrite Hf, Hp. exact Hinv.
Qed.

Lemma slot_guarded_navigateToPage P w :
  slot_guarded w -> slot_guarded (navigateToPage P w).
Proof.
  intros Hinv. unfold navigateToPage.
  destruct (pdfDoc (this w)) as [doc|] eqn:Hdoc; [|exact Hinv].
  destruct (_ || _); [exact Hinv|].
  destruct (pageRendering (this w)) eqn:Hflag.
  - unfold slot_guarded. simpl. congruence.
  - unfold renderCurrentPage. simpl. rewrite Hdoc, Hflag.
    unfold slot_guarded, updateUI. simpl. rewrite Hdoc. simpl. discriminate.
Qed.

Lemma loadPDF_gotDocument_rendering doc w :
  pageRendering (this (loadPDF_gotDocument (Resolved doc) w)) = true.
Proof.
  unfold loadPDF_gotDocument, renderCurrentPage. simpl.
  by destruct (pageRendering (this w)) eqn:Hflag.
Qed.

Lemma slot_guarded_step e w w' :
  step e w = Some w' -> slot_guarded w -> slot_guarded w'.
Proof.
  intros Hstep Hinv.
  destruct (quiet e) eqn:Hq.
  { eapply slot_guarded_nav; [|exact Hinv]. by eapply quiet_step. }
  destruct (ends_render e) eqn:Hend.
  { destruct (ends_render_step e w w' Hend Hstep)
      as (i & f & c & w0 & _ & _ & -> & _).
    destruct (nav_finally c w0) as (Hpend & _). intros _. exact Hpend. }
  destruct e as [| | | | | |i r| | | |];
    unfold quiet in Hq; try rewrite Hend in Hq; try discriminate;
    simpl in Hstep.
  - inversion Hstep; subst. by apply slot_guarded_navigateToPage.
  - inversion Hstep; subst. by apply slot_guarded_navigateToPage.
  - take_frame Hstep i w. inversion Hstep; subst; clear Hstep.
    destruct r as [doc|err]; [|discriminate Hq].
    unfold slot_guarded. by rewrite loadPDF_gotDocument_rendering.
Qed.

Lemma slot_guarded_reachable b w : reachable b w -> slot_guarded w.
Proof.
  induction 1 as [|w e w' _ IH Hstep].
  - by intros _.
  - by eapply slot_guarded_step.
Qed.

(** C3.  In every reachable world the pending slot is filled only while the
    rendering flag is up.  When the step that ends the render in progress
    runs, the slot is empty afterwards; if it held page P, the step is one
    call of [navigateToPage P] on the world with the flag down and the slot
    emptied (followed by the resolution of the cycle's promise), and if it
    held nothing, nothing is started. *)
Theorem pending_only_while_rendering (b : Browser) (w : World) :
  reachable b w ->
  (pageNumPending (this w) <> None -> pageRendering (this w) = true)
  /\ forall e w',
       ends_render e = true -> step e w = Some w' ->
       pageNumPending (this w') = None
       /\ match pageNumPending (this w) with
          | Some P =>
              exists c w0,
                nav w0 = nav w
                /\ w' = settle c
                          (navigateToPage P
                             (on_this (set_pageNumPending None)
                                (on_this (set_pageRendering false) w0)))
          | None =>
              pageRendering (this w') = false
              /\ page_requests w' = page_requests w
              /\ cycles w' = cycles w
              /\ pageNum (this w') = pageNum (this w)
          end.
Proof.
  intros Hreach. split.
  - pose proof (slot_guarded_reachable b w Hreach) as Hinv.
    unfold slot_guarded in Hinv. intros Hpend.
    destruct (pageRendering (this w)); [reflexivity|].
    exfalso. apply Hpend, Hinv. reflexivity.
  - intros e w' Hend Hstep.
    destruct (ends_render_step e w w' Hend Hstep)
      as (i & f & c & w0 & _ & _ & -> & Hnav & _).
    destruct (nav_finally c w0) as (Hpend & _ & Hcases).
    split; [exact Hpend|].
    injection Hnav as Hd0 Hn0 Hf0 Hp0 Hr0 Hc0.
    destruct (pageNumPending (this w)) as [P|] eqn:HP.
    + exists c, w0. split; [unfold nav; congruence|].
      unfold renderCurrentPage_finally. simpl. by rewrite Hp0.
    + destruct Hcases as [(Hflag & Hpage & Hreq & Hcyc & _)|
                          (P & doc & HP' & _)]; simpl in *.
      * repeat split; congruence.
      * congruence.
Qed.


(** *** At most one render cycle is in flight *)

Definition in_flight (w : World) : nat :=
  length (List.filter is_render_frame (frames w)).

(** The flag is up exactly when one cycle is suspended in the pool. *)
Definition balanced (w : World) : Prop :=
  in_flight w = if pageRendering (this w) then 1%nat else 0%nat.

Lemma in_flight_suspend f w :
  in_flight (suspend f w)
  = (in_flight w + if is_render_frame f then 1 else 0)%nat.
Proof.
  unfold in_flight. simpl. rewrite List.filter_app, length_app. simpl.
  by destruct (is_render_frame f).
Qed.

Lemma filter_fmap_length (p : Frame -> bool) (g : Frame -> Frame) l :
  (forall f, p (g f) = p f) ->
  length (List.filter p (g <$> l)) = length (List.filter p l).
Proof.
  intros Hg. induction l as [|f l IH]; [reflexivity|].
  rewrite fmap_cons. simpl. rewrite Hg.
  destruct (p f); simpl; by rewrite IH.
Qed.

Lemma in_flight_settle c w : in_flight (settle c w) = in_flight w.
Proof.
  unfold in_flight. simpl. apply filter_fmap_length.
  intros [| |[c0|]| | |]; try reflexivity. by destruct (Nat.eqb c0 c).
Qed.

Lemma filter_delete_length (p : Frame -> bool) (l : list Frame) : forall i f,
  l !! i = Some f ->
  (length (List.filter p (delete i l)) + (if p f then 1 else 0))%nat
  = length (List.filter p l).
Proof.
  induction l as [|x l IH]; intros [|i] f Hi; simpl in Hi; try discriminate.
  - inversion Hi; subst. simpl. destruct (p f); simpl; lia.
  - simpl. specialize (IH i f Hi). destruct (p x); simpl; lia.
Qed.

Lemma in_flight_resume i f w :
  frames w !! i = Some f ->
  (in_flight (set_frames (delete i (frames w)) w)
   + if is_render_frame f then 1 else 0)%nat = in_flight w.
Proof. apply filter_delete_length. Qed.

Lemma balanced_frames w w' :
  frames w' = frames w ->
  pageRendering (this w') = pageRendering (this w) ->
  balanced w -> balanced w'.
Proof. unfold balanced, in_flight. by intros -> ->. Qed.

Lemma balanced_renderCurrentPage w :
  balanced w -> balanced (fst (renderCurrentPage w)).
Proof.
  intros Hb. unfold renderCurrentPage.
  destruct (pdfDoc (this w)); [|exact Hb].
  destruct (pageRendering (this w)) eqn:Hflag; [exact Hb|].
  unfold balanced in *. simpl fst. rewrite in_flight_suspend.
  rewrite Hflag in Hb. simpl.
  change (in_flight _) with (in_flight w). by rewrite Hb.
Qed.

Lemma balanced_updateUI w : balanced w -> balanced (updateUI w).
Proof.
  destruct (updateUI_frame w) as (Hthis & Hframes & _).
  apply balanced_frames; [exact Hframes|by rewrite Hthis].
Qed.

Lemma balanced_navigateToPage P w :
  balanced w -> balanced (navigateToPage P w).
Proof.
  intros Hb. unfold navigateToPage.
  destruct (pdfDoc (this w)) as [doc|] eqn:Hdoc; [|exact Hb].
  destruct (_ || _); [exact Hb|].
  destruct (pageRendering (this w)) eqn:Hflag.
  - by eapply balanced_frames; [| |exact Hb].
  - apply balanced_updateUI, balanced_renderCurrentPage.
    by eapply balanced_frames; [| |exact Hb].
Qed.

Lemma balanced_finally c w :
  in_flight w = 0%nat -> balanced (renderCurrentPage_finally c w).
Proof.
  intros Hzero. unfold renderCurrentPage_finally.
  assert (balanced (on_this (set_pageRendering false) w)) as Hb by exact Hzero.
  unfold balanced. rewrite in_flight_settle.
  change (pageRendering (this (settle c ?x))) with (pageRendering (this x)).
  destruct (pageNumPending (this (on_this (set_pageRendering false) w)));
    [|exact Hb].
  apply balanced_navigateToPage.
  by eapply balanced_frames; [| |exact Hb].
Qed.

Lemma balanced_step e w w' :
  step e w = Some w' -> balanced w -> balanced w'.
Proof.
  intros Hstep Hb.
  destruct (ends_render e) eqn:Hend.
  { destruct (ends_render_step e w w' Hend Hstep)
      as (i & f & c & w0 & Hf & Hc & -> & Hnav & Hfr & _).
    apply balanced_finally.
    pose proof (in_flight_resume i f w Hf) as Hcount.
    assert (is_render_frame f = true) as Hr by (by destruct f).
    rewrite Hr in Hcount. unfold balanced in Hb.
    unfold in_flight in *. rewrite Hfr. simpl in Hcount.
    destruct (pageRendering (this w)); lia. }
  destruct e as [file| | |sel| |i r|i r|i|i r|i r|i]; try discriminate Hend;
    simpl in Hstep.
  - inversion Hstep; subst. destruct file; [|exact Hb].
    unfold balanced, loadPDF. rewrite in_flight_suspend. simpl.
    rewrite Nat.add_0_r. exact Hb.
  - inversion Hstep; subst. by apply balanced_navigateToPage.
  - inversion Hstep; subst. by apply balanced_navigateToPage.
  - inversion Hstep; subst. by destruct (trim sel).
  - by inversion Hstep; subst.
  - take_frame Hstep i w. inversion Hstep; subst; clear Hstep.
    pose proof (in_flight_resume i _ w Hf) as Hcount. simpl in Hcount.
    rewrite Nat.add_0_r in Hcount.
    destruct r as [buf|err]; unfold balanced in *; simpl.
    + unfold loadPDF_gotBuffer. rewrite in_flight_suspend. simpl.
      rewrite Nat.add_0_r. unfold in_flight in *. simpl in *. congruence.
    + unfold in_flight in *. simpl in *. congruence.
  - take_frame Hstep i w. inversion Hstep; subst; clear Hstep.
    pose proof (in_flight_resume i _ w Hf) as Hcount. simpl in Hcount.
    rewrite Nat.add_0_r in Hcount.
    destruct r as [doc|err].
    + unfold loadPDF_gotDocument.
      set (w0 := on_this (set_pageNum 1) (on_this (set_pdfDoc (Some doc)) _)).
      assert (balanced w0) as Hb0.
      { unfold balanced in *. unfold in_flight in *. simpl in *. congruence. }
      apply balanced_renderCurrentPage in Hb0.
      destruct (renderCurrentPage w0) as [w1 promise]. simpl in Hb0.
      unfold balanced. rewrite in_flight_suspend. simpl.
      rewrite Nat.add_0_r. exact Hb0.
    + unfold balanced in *. unfold in_flight in *. simpl in *. congruence.
  - take_frame Hstep i w. inversion Hstep; subst; clear Hstep.
    pose proof (in_flight_resume i _ w Hf) as Hcount. simpl in Hcount.
    rewrite Nat.add_0_r in Hcount.
    unfold loadPDF_rendered, balanced, updateUI in *.
    destruct (pdfDoc _); unfold in_flight in *; simpl in *; congruence.
  - take_frame Hstep i w. inversion Hstep; subst; clear Hstep.
    pose proof (in_flight_resume i _ w Hf) as Hcount. simpl in Hcount.
    destruct r as [pg|err]; [|discriminate Hend]. simpl in Hend.
    unfold renderCurrentPage_gotPage.
    destruct (getViewport pg) as [v|err]; [|discriminate Hend].
    destruct (build_page _ _) as [[pw tc] b'].
    unfold balanced in *. rewrite in_flight_suspend. simpl.
    unfold in_flight in *. simpl in *. congruence.
  - take_frame Hstep i w. inversion Hstep; subst; clear Hstep.
    pose proof (in_flight_resume i _ w Hf) as Hcount. simpl in Hcount.
    unfold balanced in *. rewrite in_flight_suspend. simpl.
    assert (in_flight (renderTextContent_gotText r
                         (set_frames (delete i (frames w)) w))
            = in_flight (set_frames (delete i (frames w)) w)) as ->.
    { unfold renderTextContent_gotText. destruct r as [items|err];
        [|reflexivity]. simpl.
      destruct (textContainer (this w)); [reflexivity|].
      by destruct (processItem <$> items). }
    assert (pageRendering (this (renderTextContent_gotText r
                         (set_frames (delete i (frames w)) w)))
            = pageRendering (this w)) as ->.
    { pose proof (nav_renderTextContent_gotText r
                    (set_frames (delete i (frames w)) w)) as Hnav.
      by injection Hnav. }
    congruence.
Qed.

(** In every reachable world the flag is up exactly when one render cycle
    is suspended, waiting for the library: a raised flag always has a cycle
    that will lower it. *)
Lemma balanced_reachable b w : reachable b w -> balanced w.
Proof.
  induction 1 as [|w e w' _ IH Hstep].
  - unfold constructor, balanced, in_flight, updateUI. reflexivity.
  - by eapply balanced_step.
Qed.

(** A cycle that is waiting for its page runs to its [finally] block,
    whatever the library answers: at once when the page or the viewport
    fails, after the text request otherwise. *)
Definition cycle_events (i n : nat) (r_page : Result PDFPageProxy)
    (r_text : Result (list TextItem)) : list Event :=
  match render_error (PageFetched i r_page) with
  | Some _ => [PageFetched i r_page]
  | None => [PageFetched i r_page; TextFetched n r_text; RenderResumed n]
  end.

Lemma frames_renderTextContent_gotText r w :
  frames (renderTextContent_gotText r w) = frames w.
Proof.
  unfold renderTextContent_gotText. destruct r as [items|err]; [|reflexivity].
  simpl. destruct (textContainer (this w)); [reflexivity|].
  by destruct (processItem <$> items).
Qed.

Lemma step_PageFetched_goes_on w i c pg v :
  frames w !! i = Some (RenderGettingPage c) ->
  getViewport pg = Resolved v ->
  exists w' pageWrapper,
    step (PageFetched i (Resolved pg)) w = Some w'
    /\ frames w'
       = delete i (frames w) ++ [RenderGettingText c pageWrapper].
Proof.
  intros Hf Hv. unfold step, resume. rewrite Hf.
  unfold renderCurrentPage_gotPage. rewrite Hv.
  destruct (build_page _ _) as [[pw tc] b']. by eexists _, pw.
Qed.

Lemma step_TextFetched_goes_on w l c pageWrapper r :
  frames w = l ++ [RenderGettingText c pageWrapper] ->
  exists w',
    step (TextFetched (length l) r) w = Some w'
    /\ frames w' = l ++ [RenderTextReturned c pageWrapper].
Proof.
  intros Hf. unfold step, resume. rewrite Hf.
  rewrite lookup_app_r, Nat.sub_diag by reflexivity. cbn [lookup list_lookup].
  eexists. split; [reflexivity|].
  cbn [suspend frames set_frames]. rewrite frames_renderTextContent_gotText.
  cbn [frames set_frames]. f_equal.
  rewrite delete_middle. apply app_nil_r.
Qed.

Lemma step_RenderResumed_ends w l c pageWrapper :
  frames w = l ++ [RenderTextReturned c pageWrapper] ->
  exists w', step (RenderResumed (length l)) w = Some w'.
Proof.
  intros Hf. unfold step, resume. rewrite Hf.
  rewrite lookup_app_r, Nat.sub_diag by reflexivity. cbn [lookup list_lookup].
  by eexists.
Qed.

Lemma render_cycle_completes w i c r_page r_text :
  frames w !! i = Some (RenderGettingPage c) ->
  exists w' e,
    run (cycle_events i (length (frames w) - 1) r_page r_text) w = Some w'
    /\ last (cycle_events i (length (frames w) - 1) r_page r_text) = Some e
    /\ ends_render e = true.
Proof.
  intros Hf. unfold cycle_events.
  assert (length (delete i (frames w)) = (length (frames w) - 1)%nat) as Hlen.
  { rewrite length_delete; [reflexivity|by eexists]. }
  rewrite <- Hlen.
  destruct (render_error (PageFetched i r_page)) as [err|] eqn:Herr.
  - assert (exists w', step (PageFetched i r_page) w = Some w') as [w' Hw'].
    { unfold step, resume. rewrite Hf. by eexists. }
    exists w', (PageFetched i r_page). cbn [run]. rewrite Hw'.
    split; [reflexivity|]. split; [reflexivity|].
    unfold ends_render. by rewrite Herr.
  - destruct r_page as [pg|err]; [|discriminate Herr]. cbn in Herr.
    destruct (getViewport pg) as [v|err] eqn:Hv; [|discriminate Herr].
    destruct (step_PageFetched_goes_on w i c pg v Hf Hv)
      as (w1 & pw & Hstep1 & Hf1).
    destruct (step_TextFetched_goes_on w1 _ c pw r_text Hf1)
      as (w2 & Hstep2 & Hf2).
    destruct (step_RenderResumed_ends w2 _ c pw Hf2) as (w3 & Hstep3).
    exists w3, (RenderResumed (length (delete i (frames w)))).
    cbn [run]. rewrite Hstep1, Hstep2, Hstep3. by repeat split.
Qed.

End Navigation.

(** ** The requests made to the library *)

Section LibraryCalls.

(** The parameters of the text-content requests made so far. *)
Definition text_requests (w : World) : list TextContentParams :=
  omap (fun c => match c with GetTextContent p => Some p | _ => None end)
    (pdfjs w).

(** Every text-content request in the trace carries the reader's options. *)
Definition params_fixed (w : World) : Prop :=
  Forall (fun p => p = textContentParams) (text_requests w).

Lemma text_requests_call c w :
  text_requests (call_pdfjs c w)
  = text_requests w ++ match c with GetTextContent p => [p] | _ => [] end.
Proof.
  unfold text_requests. cbn [pdfjs call_pdfjs]. rewrite omap_app.
  by destruct c.
Qed.

Lemma text_requests_renderCurrentPage w :
  text_requests (fst (renderCurrentPage w)) = text_requests w.
Proof.
  unfold renderCurrentPage. destruct (pdfDoc (this w)); [|reflexivity].
  destruct (pageRendering (this w)); [reflexivity|].
  cbn [fst]. unfold text_requests. cbn. rewrite omap_app. apply app_nil_r.
Qed.

Lemma text_requests_updateUI w : text_requests (updateUI w) = text_requests w.
Proof.
  unfold text_requests. by destruct (updateUI_frame w) as (_ & _ & -> & _).
Qed.

Lemma text_requests_navigateToPage P w :
  text_requests (navigateToPage P w) = text_requests w.
Proof.
  unfold navigateToPage. destruct (pdfDoc (this w)); [|reflexivity].
  destruct (_ || _); [reflexivity|].
  destruct (pageRendering (this w)); [reflexivity|].
  by rewrite text_requests_updateUI, text_requests_renderCurrentPage.
Qed.

Lemma text_requests_finally c w :
  text_requests (renderCurrentPage_finally c w) = text_requests w.
Proof.
  unfold renderCurrentPage_finally.
  change (text_requests (settle c ?x)) with (text_requests x).
  destruct (pageNumPending _); [|reflexivity].
  by rewrite text_requests_navigateToPage.
Qed.

(** What one step adds to the text-content requests: the reader's options,
    once, when a cycle got its page and viewport; nothing otherwise. *)
Lemma text_requests_step e w w' :
  step e w = Some w' ->
  text_requests w'
  = text_requests w
      ++ match e with
         | PageFetched _ (Resolved pg) =>
             match getViewport pg with
             | Resolved _ => [textContentParams]
             | Rejected _ => []
             end
         | _ => []
         end.
Proof.
  intros Hstep.
  destruct e as [file| | |sel| |i r|i r|i|i r|i r|i]; cbn [step] in Hstep.
  - inversion Hstep; subst. rewrite app_nil_r. by destruct file.
  - inversion Hstep; subst. by rewrite app_nil_r, text_requests_navigateToPage.
  - inversion Hstep; subst. by rewrite app_nil_r, text_requests_navigateToPage.
  - inversion Hstep; subst. rewrite app_nil_r. by destruct (trim sel).
  - inversion Hstep; subst. by rewrite app_nil_r.
  - take_frame Hstep i w. inversion Hstep; subst; clear Hstep.
    rewrite app_nil_r. destruct r as [buf|err]; [|reflexivity].
    unfold loadPDF_gotBuffer.
    change (text_requests (suspend ?f ?x)) with (text_requests x).
    rewrite text_requests_call. apply app_nil_r.
  - take_frame Hstep i w. inversion Hstep; subst; clear Hstep.
    rewrite app_nil_r. destruct r as [doc|err]; [|reflexivity].
    unfold loadPDF_gotDocument.
    match goal with
    | |- context [renderCurrentPage ?x] =>
        pose proof (text_requests_renderCurrentPage x) as Hr;
        destruct (renderCurrentPage x) as [w1 promise]
    end.
    exact Hr.
  - take_frame Hstep i w. inversion Hstep; subst; clear Hstep.
    rewrite app_nil_r. unfold loadPDF_rendered.
    by rewrite text_requests_updateUI.
  - take_frame Hstep i w. inversion Hstep; subst; clear Hstep.
    unfold renderCurrentPage_gotPage. destruct r as [pg|err].
    + destruct (getViewport pg) as [v|err].
      * destruct (build_page _ _) as [[pw tc] b'].
        change (text_requests (suspend ?f ?x)) with (text_requests x).
        rewrite text_requests_call. f_equal.
        unfold text_requests. cbn. rewrite omap_app. apply app_nil_r.
      * rewrite text_requests_finally. unfold text_requests. cbn.
        by rewrite omap_app.
    + by rewrite text_requests_finally, app_nil_r.
  - take_frame Hstep i w. inversion Hstep; subst; clear Hstep.
    rewrite app_nil_r.
    change (text_requests (suspend ?f ?x)) with (text_requests x).
    unfold text_requests.
    pose proof (nav_renderTextContent_gotText r
                  (set_frames (delete i (frames w)) w)) as Hnav.
    unfold renderTextContent_gotText. destruct r as [items|err];
      [|reflexivity].
    cbn. destruct (textContainer (this w)); [reflexivity|].
    by destruct (processItem <$> items).
  - take_frame Hstep i w. inversion Hstep; subst; clear Hstep.
    unfold renderCurrentPage_rendered.
    by rewrite text_requests_finally, app_nil_r.
Qed.

Lemma params_fixed_step e w w' :
  step e w = Some w' -> params_fixed w -> params_fixed w'.
Proof.
  intros Hstep Hfix. unfold params_fixed.
  rewrite (text_requests_step e w w' Hstep). apply Forall_app. split; [exact Hfix|].
  destruct e as [| | | | | | | |i [pg|err]| |]; try constructor.
  destruct (getViewport pg); repeat constructor.
Qed.

(** C8 (as amended).  Every text-content request the reader has made, in
    any reachable world, asked for whitespace normalisation
    ([normalizeWhitespace] true) and left the combination of text items on
    ([disableCombineTextItems] false); and every render cycle that gets its
    page and viewport makes exactly one such request. *)
Theorem text_content_params (b : Browser) (w : World) :
  reachable b w ->
  (forall p, p ∈ text_requests w ->
     normalizeWhitespace p = true /\ disableCombineTextItems p = false)
  /\ forall i pg v w',
       getViewport pg = Resolved v ->
       step (PageFetched i (Resolved pg)) w = Some w' ->
       text_requests w' = text_requests w ++ [textContentParams].
Proof.
  intros Hreach. split.
  - assert (params_fixed w) as Hfix.
    { induction Hreach as [|w e w' _ IH Hstep].
      - unfold params_fixed, text_requests, constructor.
        destruct (updateUI_frame
                    (on_page initDarkMode
                       {| this :=
                            {| pdfDoc := None; pageNum := 1;
                               pageRendering := false; pageNumPending := None;
                               scale := 3 # 2; textContainer := None |};
                          page := b; frames := []; pdfjs := [];
                          cycles := 0 |})) as (_ & _ & -> & _).
        constructor.
      - by eapply params_fixed_step. }
    intros p Hp.
    rewrite (proj1 (Forall_forall _ _) Hfix p Hp). by split.
  - intros i pg v w' Hv Hstep.
    rewrite (text_requests_step _ w w' Hstep). by rewrite Hv.
Qed.

(** C8, counterexample: after the first page of a document has been
    rendered, the trace holds a text-content request whose
    [disableCombineTextItems] is not true. *)
Lemma text_content_items_combined :
  reachable Fixture.blank Fixture.idle
  /\ exists p, p ∈ text_requests Fixture.idle
               /\ disableCombineTextItems p <> true.
Proof.
  split.
  - eapply after_reachable. vm_compute. reflexivity.
  - exists textContentParams. split; [|discriminate].
    vm_compute. apply list_elem_of_here.
Qed.

Lemma text_content_params_idle :
  reachable Fixture.blank Fixture.idle
  /\ textContentParams ∈ text_requests Fixture.idle
  /\ normalizeWhitespace textContentParams = true
  /\ disableCombineTextItems textContentParams = false.
Proof.
  assert (reachable Fixture.blank Fixture.idle) as Hreach.
  { eapply after_reachable. vm_compute. reflexivity. }
  assert (textContentParams ∈ text_requests Fixture.idle) as Hin.
  { vm_compute. apply list_elem_of_here. }
  split; [exact Hreach|]. split; [exact Hin|].
  exact (proj1 (text_content_params Fixture.blank Fixture.idle Hreach)
           textContentParams Hin).
Defined.

End LibraryCalls.

(** ** The document loader *)

Section Loading.

(** The error that sends [loadPDF] into its [catch] block. *)
Definition load_error (e : Event) : option Error :=
  match e with
  | FileRead _ (Rejected err) | DocumentOpened _ (Rejected err) => Some err
  | _ => None
  end.

(** The two ways a load attempt fails: the file cannot be read, or it is
    read and the library rejects its bytes. *)
Inductive LoadFailure :=
| ReadFails (err : Error)
| LibraryRejects (buffer : list byte) (err : Error).

Definition failure_error (how : LoadFailure) : Error :=
  match how with
  | ReadFails err | LibraryRejects _ err => err
  end.

(** The events of a failing load attempt whose frame sits at position [i],
    with nothing else happening in between. *)
Definition failed_load (file : File) (i : nat) (how : LoadFailure)
  : list Event :=
  match how with
  | ReadFails err => [FileChosen (Some file); FileRead i (Rejected err)]
  | LibraryRejects buffer err =>
      [FileChosen (Some file); FileRead i (Resolved buffer);
       DocumentOpened i (Rejected err)]
  end.

Definition load_alert : string :=
  "Error loading PDF file. Please try another file.".

Lemma step_last_frame w l f :
  frames w = l ++ [f] ->
  resume (length l) w = Some (f, set_frames l w).
Proof.
  intros Hf. unfold resume. rewrite Hf.
  rewrite lookup_app_r, Nat.sub_diag by reflexivity. cbn [lookup list_lookup].
  by rewrite delete_middle, app_nil_r.
Qed.

(** C5.  A load attempt that fails, because the file cannot be read or
    because the library rejects it, runs to its end (the error is caught),
    leaves every field of the reader as it was (the document handle and the
    current page among them), leaves the controls and the displayed page as
    they were, logs the error and raises exactly one alert.  The same holds
    for the failing step alone, in any world, whatever happened between the
    steps of the attempt. *)
Theorem failed_load_changes_nothing (w : World) :
  (forall file how,
     exists w',
       run (failed_load file (length (frames w)) how) w = Some w'
       /\ this w' = this w
       /\ frames w' = frames w
       /\ alerts (page w') = alerts (page w) ++ [load_alert]
       /\ console (page w')
          = console (page w)
              ++ [ConsoleError "Error loading PDF:" (failure_error how)]
       /\ pageInfo (page w') = pageInfo (page w)
       /\ pdfContainer (page w') = pdfContainer (page w))
  /\ (forall e err w',
        load_error e = Some err -> step e w = Some w' ->
        this w' = this w
        /\ (exists i, frames w' = delete i (frames w))
        /\ alerts (page w') = alerts (page w) ++ [load_alert]
        /\ console (page w')
           = console (page w) ++ [ConsoleError "Error loading PDF:" err]
        /\ pageInfo (page w') = pageInfo (page w)
        /\ pdfContainer (page w') = pdfContainer (page w)).
Proof.
  split.
  - intros file [err|buffer err]; cbn [failed_load run step loadPDF].
    + rewrite (step_last_frame (suspend LoadReadingFile w) (frames w)
                 LoadReadingFile eq_refl).
      eexists. split; [reflexivity|]. by repeat split.
    + rewrite (step_last_frame (suspend LoadReadingFile w) (frames w)
                 LoadReadingFile eq_refl).
      cbn [loadPDF_gotBuffer].
      match goal with
      | |- context [suspend LoadOpeningDocument ?x] =>
          rewrite (step_last_frame (suspend LoadOpeningDocument x) (frames w)
                     LoadOpeningDocument eq_refl)
      end.
      eexists. split; [reflexivity|]. by repeat split.
  - intros e err w' Herr Hstep.
    destruct e as [| | | | |i [buf|err']|i [doc|err']| | | |];
      try discriminate Herr; cbn [step] in Hstep; take_frame Hstep i w;
      inversion Hstep; subst; clear Hstep; inversion Herr; subst;
      (repeat split; try reflexivity; by exists i).
Qed.

(** C5 on a document of three pages that is on page 2, when the library
    rejects the bytes of the next file. *)
Lemma failed_load_on_page_2 :
  exists w',
    run (failed_load Fixture.some_file
           (length (frames (navigateToPage 2 Fixture.idle)))
           (LibraryRejects [] "InvalidPDFException"))
      (navigateToPage 2 Fixture.idle) = Some w'
    /\ pdfDoc (this w') = Some Fixture.doc3 /\ pageNum (this w') = 2
    /\ length (alerts (page w')) = 1%nat.
Proof.
  destruct (proj1 (failed_load_changes_nothing (navigateToPage 2 Fixture.idle))
              Fixture.some_file (LibraryRejects [] "InvalidPDFException"))
    as (w' & Hrun & Hthis & _ & Hal & _).
  exists w'. split; [exact Hrun|]. rewrite Hthis, Hal, length_app.
  split; [|split]; vm_compute; reflexivity.
Defined.

End Loading.

(** ** The claims at concrete inputs *)

Section Witnesses.

Lemma idle_reachable : reachable Fixture.blank Fixture.idle.
Proof. eapply after_reachable. vm_compute. reflexivity. Qed.

Lemma rendering_reachable : reachable Fixture.blank Fixture.rendering.
Proof. eapply after_reachable. vm_compute. reflexivity. Qed.

(** C1 at a document of three pages on page 1: page 2 is accepted, page 4 is
    not. *)
Lemma navigateToPage_idle_doc3 :
  pdfDoc (this Fixture.idle) = Some Fixture.doc3
  /\ pageRendering (this Fixture.idle) = false
  /\ pageNum (this (navigateToPage 2 Fixture.idle)) = 2
  /\ navigateToPage 4 Fixture.idle = Fixture.idle.
Proof.
  assert (pdfDoc (this Fixture.idle) = Some Fixture.doc3) as Hdoc
    by (vm_compute; reflexivity).
  assert (pageRendering (this Fixture.idle) = false) as Hidle
    by (vm_compute; reflexivity).
  split; [exact Hdoc|]. split; [exact Hidle|]. split.
  - apply (navigateToPage_idle Fixture.idle Fixture.doc3 2 Hdoc Hidle).
    vm_compute. split; discriminate.
  - apply (navigateToPage_idle Fixture.idle Fixture.doc3 4 Hdoc Hidle).
    right. vm_compute. reflexivity.
Defined.

(** C2 while the first page of three is being rendered: page 2 is asked
    for, the page arrives, page 3 is asked for. *)
Lemma requests_coalesce_2_then_3 :
  exists w1,
    perform [Request 2; Other (PageFetched 0 (Resolved Fixture.page_ok));
             Request 3] Fixture.rendering = Some w1
    /\ pageNumPending (this w1) = Some 3
    /\ forall e w2,
         ends_render e = true -> step e w1 = Some w2 ->
         page_requests w2 = page_requests Fixture.rendering ++ [3]
         /\ pageNum (this w2) = 3.
Proof.
  set (acts := [Request 2; Other (PageFetched 0 (Resolved Fixture.page_ok));
                Request 3]).
  set (w1 := default Fixture.rendering (perform acts Fixture.rendering)).
  assert (perform acts Fixture.rendering = Some w1) as Hrun
    by (vm_compute; reflexivity).
  assert (Forall (fun Q => 1 <= Q <= numPages Fixture.doc3) (requests acts))
    as Hvalid.
  { repeat constructor; vm_compute; discriminate. }
  destruct (requests_coalesce Fixture.rendering Fixture.doc3 acts 3 w1
              eq_refl eq_refl eq_refl Hvalid eq_refl Hrun)
    as [(_ & _ & _ & _ & Hslot) Hend].
  exists w1. split; [exact Hrun|]. split; [exact Hslot|].
  intros e w2 He Hstep.
  destruct (Hend e w2 He Hstep) as (Hreq & _ & Hpage & _).
  by split.
Defined.

(** C3 while the first page is being rendered and page 2 is pending. *)
Lemma pending_while_rendering_doc3 :
  reachable Fixture.blank (Fixture.after (Fixture.opening ++ [NextClicked]))
  /\ pageNumPending (this (Fixture.after (Fixture.opening ++ [NextClicked])))
     = Some 2
  /\ pageRendering (this (Fixture.after (Fixture.opening ++ [NextClicked])))
     = true.
Proof.
  assert (reachable Fixture.blank
            (Fixture.after (Fixture.opening ++ [NextClicked]))) as Hreach.
  { eapply after_reachable. vm_compute. reflexivity. }
  assert (pageNumPending
            (this (Fixture.after (Fixture.opening ++ [NextClicked])))
          = Some 2) as Hslot by (vm_compute; reflexivity).
  split; [exact Hreach|]. split; [exact Hslot|].
  apply (pending_only_while_rendering Fixture.blank _ Hreach).
  rewrite Hslot. discriminate.
Defined.


(** C9 on a page without the class and with empty storage, and on a page
    with the class and the matching stored value. *)
Lemma toggleDarkMode_twice_blank :
  dark_mode_synced Fixture.blank
  /\ savedDarkMode (toggleDarkMode (toggleDarkMode Fixture.blank))
     = savedDarkMode Fixture.blank
  /\ contains_dark_mode (toggleDarkMode Fixture.blank) = true
  /\ darkModeToggle (toggleDarkMode Fixture.blank) = Glyph.sun
  /\ darkModeToggle (toggleDarkMode (toggleDarkMode Fixture.blank))
     = Glyph.moon
  /\ dark_mode_synced (toggleDarkMode Fixture.blank)
  /\ savedDarkMode
       (toggleDarkMode (toggleDarkMode (toggleDarkMode Fixture.blank)))
     = savedDarkMode (toggleDarkMode Fixture.blank).
Proof.
  assert (dark_mode_synced Fixture.blank) as Hsync
    by (vm_compute; reflexivity).
  assert (dark_mode_synced (toggleDarkMode Fixture.blank)) as Hsync'
    by (vm_compute; reflexivity).
  destruct (toggleDarkMode_twice Fixture.blank)
    as (_ & _ & Hback & (Hon & _ & _ & Hsun) & (Hoff & _ & _ & Hmoon)).
  destruct (toggleDarkMode_twice (toggleDarkMode Fixture.blank))
    as (_ & _ & Hback' & _).
  split; [exact Hsync|]. split; [by apply Hback|].
  assert (contains_dark_mode (toggleDarkMode Fixture.blank) = true) as Hdark
    by (rewrite Hon; vm_compute; reflexivity).
  split; [exact Hdark|]. split; [|split; [|split]].
  - rewrite Hsun, Hdark. reflexivity.
  - rewrite Hmoon, Hoff, Hdark. reflexivity.
  - exact Hsync'.
  - by apply Hback'.
Defined.


End Witnesses.

(** * Further properties of the code *)

(** ** More on the text run post-processor (lines 174-186) *)

Section TextRunsMore.

Definition is_dash (c : N) : bool :=
  N.eqb c Dash.en_dash || N.eqb c Dash.em_dash || N.eqb c Dash.figure_dash.

Lemma remap_dashes_flat_map s : remap_dashes s = flat_map remap_code_unit s.
Proof.
  induction s as [|c s IH]; [reflexivity|].
  rewrite remap_dashes_cons, IH. reflexivity.
Qed.

Lemma remap_dashes_app s t :
  remap_dashes (s ++ t) = remap_dashes s ++ remap_dashes t.
Proof. rewrite !remap_dashes_flat_map. apply flat_map_app. Qed.

Lemma remap_code_unit_no_dash c :
  Forall (fun x => is_dash x = false) (remap_code_unit c).
Proof.
  unfold remap_code_unit.
  destruct (N.eqb c Dash.en_dash) eqn:Hen; [by repeat constructor|].
  destruct (N.eqb c Dash.em_dash) eqn:Hem; [by repeat constructor|].
  destruct (N.eqb c Dash.figure_dash) eqn:Hfig; [by repeat constructor|].
  repeat constructor. unfold is_dash. by rewrite Hen, Hem, Hfig.
Qed.

Lemma remap_dashes_no_dash s :
  Forall (fun x => is_dash x = false) (remap_dashes s).
Proof.
  induction s as [|c s IH]; [constructor|].
  rewrite remap_dashes_cons. apply Forall_app. split; [|exact IH].
  apply remap_code_unit_no_dash.
Qed.

Lemma remap_dashes_id s :
  Forall (fun x => is_dash x = false) s -> remap_dashes s = s.
Proof.
  induction 1 as [|c s Hc _ IH]; [reflexivity|].
  rewrite remap_dashes_cons, IH. f_equal.
  unfold is_dash in Hc. apply orb_false_elim in Hc as [Hc Hfig].
  apply orb_false_elim in Hc as [Hen Hem].
  unfold remap_code_unit. by rewrite Hen, Hem, Hfig.
Qed.

(** X1.  The processed string of a run holds no en dash, em dash or figure
    dash, whatever the run was; so processing a string a second time
    changes nothing, and a run without any of the three dashes comes out as
    it went in. *)
Theorem remap_dashes_leaves_no_dash (s : jsstring) :
  (forall c, c ∈ remap_dashes s ->
     c <> Dash.en_dash /\ c <> Dash.em_dash /\ c <> Dash.figure_dash)
  /\ remap_dashes (remap_dashes s) = remap_dashes s
  /\ (Dash.en_dash ∉ s -> Dash.em_dash ∉ s -> Dash.figure_dash ∉ s ->
      remap_dashes s = s).
Proof.
  pose proof (remap_dashes_no_dash s) as Hno. split; [|split].
  - intros c Hc. apply (proj1 (Forall_forall _ _) Hno) in Hc.
    unfold is_dash in Hc. apply orb_false_elim in Hc as [Hc Hfig].
    apply orb_false_elim in Hc as [Hen Hem].
    by rewrite !N.eqb_neq in *.
  - by apply remap_dashes_id.
  - intros Hen Hem Hfig. apply remap_dashes_id, Forall_forall.
    intros c Hc. unfold is_dash.
    destruct (N.eqb_spec c Dash.en_dash) as [->|_]; [done|].
    destruct (N.eqb_spec c Dash.em_dash) as [->|_]; [done|].
    by destruct (N.eqb_spec c Dash.figure_dash) as [->|_].
Qed.

Lemma processed_text_concat items :
  concat (str <$> (processItem <$> items))
  = remap_dashes (concat (str <$> items)).
Proof.
  induction items as [|item items IH]; [reflexivity|].
  rewrite !fmap_cons. cbn [concat]. rewrite remap_dashes_app, IH.
  reflexivity.
Qed.

(** Appending the spans of a page touches the elements only. *)
Lemma append_text_items_frame container items : forall b,
  console (foldl (append_text_item container) b items) = console b
  /\ alerts (foldl (append_text_item container) b items) = alerts b
  /\ pdfContainer (foldl (append_text_item container) b items)
     = pdfContainer b
  /\ pageInfo (foldl (append_text_item container) b items) = pageInfo b
  /\ prevPage_disabled (foldl (append_text_item container) b items)
     = prevPage_disabled b
  /\ nextPage_disabled (foldl (append_text_item container) b items)
     = nextPage_disabled b
  /\ bodyClassList (foldl (append_text_item container) b items)
     = bodyClassList b
  /\ darkModeToggle (foldl (append_text_item container) b items)
     = darkModeToggle b
  /\ localStorage (foldl (append_text_item container) b items)
     = localStorage b.
Proof.
  induction items as [|item items IH]; intros b; [done|].
  cbn [foldl]. destruct (IH (append_text_item container b item))
    as (-> & -> & -> & -> & -> & -> & -> & -> & ->).
  done.
Qed.

(** X2.  When the text of a page arrives, the first thing the step does is
    log one line: the processed strings of all runs joined without a
    separator, which is the processed form of the joined raw strings.  When
    the reader holds a text container nothing else is logged. *)
Theorem text_arrival_logs_processed_text (w : World) (i : nat)
    (items : list TextItem) (w' : World) :
  step (TextFetched i (Resolved items)) w = Some w' ->
  exists rest,
    console (page w')
    = console (page w)
        ++ ConsoleLog "" (remap_dashes (concat (str <$> items))) :: rest
    /\ (textContainer (this w) <> None -> rest = []).
Proof.
  intros Hstep. cbn [step] in Hstep. take_frame Hstep i w.
  inversion Hstep; subst; clear Hstep.
  unfold renderTextContent_gotText. rewrite processed_text_concat.
  cbn [this console_log on_page set_frames textContainer].
  destruct (textContainer (this w)) as [tc|] eqn:Htc.
  - exists []. split; [|done].
    cbn [suspend set_frames page on_page console_log].
    by destruct (append_text_items_frame tc (processItem <$> items)
                   (set_console
                      (console (page w)
                         ++ [ConsoleLog ""
                               (remap_dashes (concat (str <$> items)))])
                      (page w))) as (-> & _).
  - destruct (processItem <$> items) as [|item rest].
    + exists []. by split.
    + eexists [_]. split; [|done]. cbn. by rewrite <- app_assoc.
Qed.

Lemma text_arrival_logs_en_dash :
  exists w',
    step (TextFetched 1 (Resolved [ {| str := [0x41; 0x2013]%N;
                                       transform := Matrix 0 |};
                                    {| str := [0x42]%N;
                                       transform := Matrix 1 |} ]))
      (Fixture.after (Fixture.opening
                        ++ [PageFetched 0 (Resolved Fixture.page_ok)]))
    = Some w'
    /\ last (console (page w'))
       = Some (ConsoleLog "" [0x41; 0x201A; 0xC4; 0xEC; 0x42]%N).
Proof.
  set (e := TextFetched 1 _). set (w := Fixture.after _).
  set (w' := default w (step e w)).
  assert (step e w = Some w') as Hstep by (vm_compute; reflexivity).
  exists w'. split; [exact Hstep|].
  destruct (text_arrival_logs_processed_text w 1 _ w' Hstep)
    as (rest & Hcon & Hrest).
  rewrite Hcon, (Hrest ltac:(vm_compute; discriminate)).
  rewrite last_snoc. reflexivity.
Defined.

End TextRunsMore.

(** ** Text selection logging (lines 61-67, 237-240) *)

Section Selection.

Definition all_space (s : jsstring) : Prop :=
  Forall (fun c => is_js_space c = true) s.

Lemma trim_start_split s :
  exists l,
    s = l ++ trim_start s /\ all_space l
    /\ forall c, head (trim_start s) = Some c -> is_js_space c = false.
Proof.
  induction s as [|c s (l & Hs & Hl & Hhead)].
  - exists []. repeat split; [constructor|discriminate].
  - cbn [trim_start]. destruct (is_js_space c) eqn:Hc.
    + exists (c :: l). split; [by rewrite Hs at 1|].
      split; [by constructor|exact Hhead].
    + exists []. split; [reflexivity|]. split; [constructor|].
      intros c' Hc'. cbn in Hc'. congruence.
Qed.

(** [trim] cuts a run of white space off each end and nothing else. *)
Lemma trim_split s :
  exists l r,
    s = l ++ trim s ++ r /\ all_space l /\ all_space r
    /\ (forall c, head (trim s) = Some c -> is_js_space c = false)
    /\ (forall c, last (trim s) = Some c -> is_js_space c = false).
Proof.
  destruct (trim_start_split s) as (l & Hs & Hl & Hhead).
  destruct (trim_start_split (reverse (trim_start s)))
    as (r & Hr & Hrsp & Hlast).
  exists l, (reverse r). unfold trim.
  assert (trim_start s
          = reverse (trim_start (reverse (trim_start s))) ++ reverse r)
    as Hmid.
  { rewrite <- reverse_app, <- Hr. by rewrite reverse_involutive. }
  split; [by rewrite <- Hmid|]. split; [exact Hl|].
  split; [by apply Forall_reverse|]. split.
  - intros c Hc. apply Hhead. rewrite Hmid, head_app. by rewrite Hc.
  - intros c Hc. apply Hlast. by rewrite <- last_reverse.
Qed.

Lemma trim_all_space s : all_space s -> trim s = [].
Proof.
  intros Hs. assert (trim_start s = []) as Hts.
  { induction Hs as [|c s Hc _ IH]; [reflexivity|].
    cbn [trim_start]. by rewrite Hc. }
  unfold trim. by rewrite Hts.
Qed.

(** X3.  A mouse-up splits the selection's text into leading white space,
    a middle part and trailing white space; the middle part neither starts
    nor ends with white space.  When it is empty (the selection is empty or
    all white space) the world is unchanged; otherwise exactly one line is
    logged, labelled "Selected text:" and holding the middle part, and
    nothing else changes. *)
Theorem mouse_up_logs_trimmed_selection (w : World) (selection : jsstring) :
  exists l t r,
    selection = l ++ t ++ r /\ all_space l /\ all_space r
    /\ (forall c, head t = Some c -> is_js_space c = false)
    /\ (forall c, last t = Some c -> is_js_space c = false)
    /\ step (MouseUp selection) w
       = Some (if decide (t = []) then w
               else console_log "Selected text:" t w)
    /\ (all_space selection -> t = []).
Proof.
  destruct (trim_split selection) as (l & r & Hsel & Hl & Hr & Hhead & Hlast).
  exists l, (trim selection), r.
  split; [exact Hsel|]. split; [exact Hl|]. split; [exact Hr|].
  split; [exact Hhead|]. split; [exact Hlast|]. split.
  - cbn [step]. by destruct (trim selection).
  - apply trim_all_space.
Qed.

End Selection.

(** ** More on the preference store (lines 258-282) *)

Section DarkModeMore.

Lemma classList_toggle_involutive token (c : gset string) :
  classList_toggle token (classList_toggle token c) = c.
Proof.
  unfold classList_toggle.
  destruct (decide (token ∈ c)) as [Hin|Hout].
  - rewrite (bool_decide_eq_true_2 _ Hin).
    rewrite bool_decide_eq_false_2.
    + apply set_eq. intros x. rewrite elem_of_union, elem_of_difference,
        elem_of_singleton.
      destruct (decide (x = token)) as [->|]; tauto.
    + intros [_ Hnot]%elem_of_difference. apply Hnot.
      by apply elem_of_singleton.
  - rewrite (bool_decide_eq_false_2 _ Hout).
    rewrite bool_decide_eq_true_2.
    + apply set_eq. intros x. rewrite elem_of_difference, elem_of_union,
        elem_of_singleton.
      split; [tauto|]. intros Hx. split; [tauto|]. by intros ->.
    + apply elem_of_union. right. by apply elem_of_singleton.
Qed.

Lemma classList_toggle_other token (c : gset string) x :
  x <> token -> x ∈ classList_toggle token c <-> x ∈ c.
Proof.
  intros Hne. unfold classList_toggle.
  destruct (bool_decide (token ∈ c)).
  - rewrite elem_of_difference, elem_of_singleton. tauto.
  - rewrite elem_of_union, elem_of_singleton. tauto.
Qed.

(** X4.  A toggle touches the class list, the "darkMode" key and the
    button, and nothing else: every other class of the body and every other
    key of the storage is kept, and so are the elements, the controls, the
    console and the alerts.  Two toggles restore the body's class list and
    the button's glyph exactly. *)
Theorem toggleDarkMode_touches_only_dark_mode (b : Browser) :
  (forall token, token <> "dark-mode"%string ->
     token ∈ bodyClassList (toggleDarkMode b) <-> token ∈ bodyClassList b)
  /\ (forall key, key <> "darkMode"%string ->
        localStorage (toggleDarkMode b) !! key = localStorage b !! key)
  /\ nodes (toggleDarkMode b) = nodes b
  /\ pdfContainer (toggleDarkMode b) = pdfContainer b
  /\ pageInfo (toggleDarkMode b) = pageInfo b
  /\ prevPage_disabled (toggleDarkMode b) = prevPage_disabled b
  /\ nextPage_disabled (toggleDarkMode b) = nextPage_disabled b
  /\ console (toggleDarkMode b) = console b
  /\ alerts (toggleDarkMode b) = alerts b
  /\ bodyClassList (toggleDarkMode (toggleDarkMode b)) = bodyClassList b
  /\ darkModeToggle (toggleDarkMode (toggleDarkMode b))
     = if contains_dark_mode b then Glyph.sun else Glyph.moon.
Proof.
  split; [|split; [|repeat split]].
  - intros token Hne. by apply classList_toggle_other.
  - intros key Hne. unfold toggleDarkMode. cbn [localStorage set_localStorage
      updateDarkModeButton set_darkModeToggle].
    by rewrite lookup_insert_ne.
  - apply classList_toggle_involutive.
  - rewrite toggleDarkMode_glyph, !toggleDarkMode_contains.
    by rewrite negb_involutive.
Qed.

(** The page as a reload finds it: the body's classes are those of the
    markup again, the storage is what the last session left. *)
Definition reloaded (markup : gset string) (b : Browser) : Browser :=
  set_bodyClassList markup b.

(** X5.  The preference survives a reload.  After a toggle, starting the
    script again on a page whose markup does not put the class on the body
    brings back the dark-mode state the toggle left: the class is on the
    body exactly when it was, and the button shows the matching glyph. *)
Theorem dark_mode_survives_reload (b : Browser) (markup : gset string) :
  "dark-mode"%string ∉ markup ->
  contains_dark_mode (initDarkMode (reloaded markup (toggleDarkMode b)))
  = contains_dark_mode (toggleDarkMode b)
  /\ darkModeToggle (initDarkMode (reloaded markup (toggleDarkMode b)))
     = darkModeToggle (toggleDarkMode b)
  /\ page (constructor (reloaded markup (toggleDarkMode b)))
     = set_controls (lit "No PDF loaded") true true
         (initDarkMode (reloaded markup (toggleDarkMode b))).
Proof.
  intros Hmarkup.
  assert (contains_dark_mode
            (initDarkMode (reloaded markup (toggleDarkMode b)))
          = contains_dark_mode (toggleDarkMode b)) as Hsame.
  { pose proof (initDarkMode_synced (reloaded markup (toggleDarkMode b))
                  Hmarkup) as Hsync.
    unfold dark_mode_synced in Hsync. rewrite <- Hsync.
    rewrite <- toggleDarkMode_saved.
    unfold initDarkMode, reloaded.
    by destruct (savedDarkMode (set_bodyClassList markup (toggleDarkMode b))). }
  split; [exact Hsame|]. split; [|reflexivity].
  rewrite toggleDarkMode_glyph, <- Hsame. reflexivity.
Qed.

Lemma dark_mode_survives_reload_blank :
  ("dark-mode"%string ∉ (∅ : gset string))
  /\ contains_dark_mode
       (initDarkMode (reloaded ∅ (toggleDarkMode Fixture.blank))) = true
  /\ darkModeToggle
       (initDarkMode (reloaded ∅ (toggleDarkMode Fixture.blank)))
     = Glyph.sun.
Proof.
  assert ("dark-mode"%string ∉ (∅ : gset string)) as Hmarkup
    by apply not_elem_of_empty.
  destruct (dark_mode_survives_reload Fixture.blank ∅ Hmarkup)
    as (Hclass & Hglyph & _).
  split; [exact Hmarkup|]. split.
  - rewrite Hclass. vm_compute. reflexivity.
  - rewrite Hglyph. vm_compute. reflexivity.
Defined.

End DarkModeMore.

(** ** More on the navigation controller *)

Section NavigationMore.

(** The current page is 1, or a page of the document held. *)
Definition page_in_range (w : World) : Prop :=
  pageNum (this w) = 1
  \/ exists doc, pdfDoc (this w) = Some doc
                 /\ 1 <= pageNum (this w) <= numPages doc.

Lemma page_in_range_nav w w' :
  nav w' = nav w -> page_in_range w -> page_in_range w'.
Proof.
  intros Hnav Hin. injection Hnav as Hd Hn _ _ _ _.
  unfold page_in_range. by rewrite Hd, Hn.
Qed.

Lemma page_in_range_navigateToPage P w :
  page_in_range w -> page_in_range (navigateToPage P w).
Proof.
  intros Hin.
  destruct (pdfDoc (this w)) as [doc|] eqn:Hdoc.
  - destruct (decide (1 <= P <= numPages doc)) as [HP|HP].
    + destruct (pageRendering (this w)) eqn:Hflag.
      * by rewrite (navigateToPage_queues w doc P Hdoc Hflag HP).
      * destruct (navigateToPage_starts w doc P Hdoc Hflag HP)
          as (_ & Hnum & _ & _ & Hd & _).
        right. exists doc. by rewrite Hd, Hnum.
    + rewrite (navigateToPage_out_of_range w doc P Hdoc); [exact Hin|lia].
  - unfold navigateToPage. by rewrite Hdoc.
Qed.

Lemma page_in_range_step e w w' :
  step e w = Some w' -> page_in_range w -> page_in_range w'.
Proof.
  intros Hstep Hin.
  destruct (quiet e) eqn:Hq.
  { eapply page_in_range_nav; [|exact Hin]. by eapply quiet_step. }
  destruct (ends_render e) eqn:Hend.
  { destruct (ends_render_step e w w' Hend Hstep)
      as (i & f & c & w0 & _ & _ & -> & Hnav & _).
    apply (page_in_range_nav w w0 Hnav) in Hin.
    destruct (nav_finally c w0)
      as (_ & Hdoc & [(_ & Hpage & _)|
                      (P & doc & _ & Hd & HP & _ & Hpage & _)]).
    - injection Hnav as _ _ _ _ _ _. unfold page_in_range.
      cbn [nav nav_doc nav_page] in Hdoc, Hpage. by rewrite Hdoc, Hpage.
    - right. exists doc. cbn [nav nav_doc nav_page] in *.
      split; [congruence|]. by rewrite Hpage. }
  destruct e as [| | | | | |i r| | | |];
    unfold quiet in Hq; try rewrite Hend in Hq; try discriminate;
    cbn [step] in Hstep.
  - inversion Hstep; subst. by apply page_in_range_navigateToPage.
  - inversion Hstep; subst. by apply page_in_range_navigateToPage.
  - take_frame Hstep i w. inversion Hstep; subst; clear Hstep.
    destruct r as [doc|err]; [|discriminate Hq]. left.
    unfold loadPDF_gotDocument, renderCurrentPage.
    cbn [this on_this pdfDoc set_pageNum set_pdfDoc pageRendering set_frames].
    by destruct (pageRendering (this w)).
Qed.

Lemma page_in_range_reachable b w : reachable b w -> page_in_range w.
Proof.
  induction 1 as [|w e w' _ IH Hstep].
  - left. unfold constructor, updateUI. reflexivity.
  - by eapply page_in_range_step.
Qed.

(** X6.  In every reachable world the current page is 1 or lies within the
    document held: with a document that has at least one page it is always
    a page of that document, and without a document it is 1. *)
Theorem current_page_in_range (b : Browser) (w : World) :
  reachable b w ->
  (forall doc, pdfDoc (this w) = Some doc -> 1 <= numPages doc ->
     1 <= pageNum (this w) <= numPages doc)
  /\ (pdfDoc (this w) = None -> pageNum (this w) = 1).
Proof.
  intros Hreach. pose proof (page_in_range_reachable b w Hreach) as Hin.
  split.
  - intros doc Hdoc Hpages.
    destruct Hin as [Hone|(doc' & Hdoc' & Hin)]; [lia|congruence].
  - intros Hdoc. destruct Hin as [Hone|(doc' & Hdoc' & _)]; congruence.
Qed.

Lemma current_page_in_range_after_next :
  reachable Fixture.blank
    (Fixture.after (Fixture.opening ++ Fixture.first_render ++ [NextClicked]))
  /\ 1 <= pageNum
            (this (Fixture.after
                     (Fixture.opening ++ Fixture.first_render
                        ++ [NextClicked]))) <= 3.
Proof.
  assert (reachable Fixture.blank
            (Fixture.after
               (Fixture.opening ++ Fixture.first_render ++ [NextClicked])))
    as Hreach.
  { eapply after_reachable. vm_compute. reflexivity. }
  split; [exact Hreach|].
  apply (proj1 (current_page_in_range Fixture.blank _ Hreach) Fixture.doc3).
  - vm_compute. reflexivity.
  - vm_compute. discriminate.
Defined.

(** X7.  The state [updateUI] gives a button tells whether a click on it is
    accepted, in every reachable world.  A click on a button that
    [updateUI] disables changes nothing.  A click on a button it enables
    moves the current page by one when no render is in progress, and puts
    that neighbour page into the pending slot when one is. *)
Theorem buttons_tell_acceptance (b : Browser) (w : World) :
  reachable b w ->
  (prevPage_disabled (page (updateUI w)) = true -> step PrevClicked w = Some w)
  /\ (nextPage_disabled (page (updateUI w)) = true ->
      step NextClicked w = Some w)
  /\ (prevPage_disabled (page (updateUI w)) = false ->
      exists w',
        step PrevClicked w = Some w'
        /\ if pageRendering (this w)
           then pageNumPending (this w') = Some (pageNum (this w) - 1)
                /\ pageNum (this w') = pageNum (this w)
           else pageNum (this w') = pageNum (this w) - 1)
  /\ (nextPage_disabled (page (updateUI w)) = false ->
      exists w',
        step NextClicked w = Some w'
        /\ if pageRendering (this w)
           then pageNumPending (this w') = Some (pageNum (this w) + 1)
                /\ pageNum (this w') = pageNum (this w)
           else pageNum (this w') = pageNum (this w) + 1).
Proof.
  intros Hreach. pose proof (page_in_range_reachable b w Hreach) as Hin.
  assert (forall P doc, pdfDoc (this w) = Some doc -> 1 <= P <= numPages doc ->
            exists w',
              Some (navigateToPage P w) = Some w'
              /\ if pageRendering (this w)
                 then pageNumPending (this w') = Some P
                      /\ pageNum (this w') = pageNum (this w)
                 else pageNum (this w') = P) as Hmove.
  { intros P doc Hdoc HP. eexists. split; [reflexivity|].
    destruct (pageRendering (this w)) eqn:Hflag.
    - by rewrite (navigateToPage_queues w doc P Hdoc Hflag HP).
    - by destruct (navigateToPage_starts w doc P Hdoc Hflag HP) as (_ & -> & _). }
  cbn [step]. unfold updateUI.
  destruct (pdfDoc (this w)) as [doc|] eqn:Hdoc;
    cbn [page on_page set_controls prevPage_disabled nextPage_disabled].
  - assert (pageNum (this w) = 1 \/ 1 <= pageNum (this w) <= numPages doc)
      as Hrange.
    { destruct Hin as [?|(doc' & Hdoc' & ?)]; [by left|right; congruence]. }
    split; [|split; [|split]].
    + intros Hle%Z.leb_le. f_equal.
      apply (navigateToPage_out_of_range w doc); [exact Hdoc|lia].
    + intros Hge. rewrite Z.geb_le in Hge. f_equal.
      apply (navigateToPage_out_of_range w doc); [exact Hdoc|lia].
    + intros Hgt%Z.leb_gt. apply (Hmove _ doc eq_refl). lia.
    + intros Hlt. rewrite Z.geb_leb in Hlt. apply Z.leb_gt in Hlt.
      apply (Hmove _ doc eq_refl). lia.
  - unfold navigateToPage. rewrite Hdoc. by repeat split.
Qed.

Lemma buttons_tell_acceptance_idle_doc3 :
  reachable Fixture.blank Fixture.idle
  /\ step PrevClicked Fixture.idle = Some Fixture.idle
  /\ exists w', step NextClicked Fixture.idle = Some w'
                /\ pageNum (this w') = 2.
Proof.
  pose proof idle_reachable as Hreach.
  destruct (buttons_tell_acceptance Fixture.blank Fixture.idle Hreach)
    as (Hprev & _ & _ & Hnext).
  split; [exact Hreach|]. split.
  - apply Hprev. vm_compute. reflexivity.
  - destruct (Hnext ltac:(vm_compute; reflexivity)) as (w' & Hstep & Hpage).
    exists w'. split; [exact Hstep|].
    replace (pageRendering (this Fixture.idle)) with false in Hpage
      by (vm_compute; reflexivity).
    rewrite Hpage. vm_compute. reflexivity.
Defined.

(** X8.  Clicks on a navigation button while a render is in progress do not
    add up: any number of clicks on the same button leaves the world that
    one click leaves.  The neighbour of the page that was current when the
    render began is pending at most (twice "next" does not mean two pages
    on), and the page under render stays the current page. *)
Theorem clicks_do_not_add_up (w : World) (n : nat) :
  pageRendering (this w) = true ->
  run (replicate (S n) NextClicked) w = step NextClicked w
  /\ run (replicate (S n) PrevClicked) w = step PrevClicked w
  /\ (forall w', step NextClicked w = Some w' ->
        pageNum (this w') = pageNum (this w)
        /\ page_requests w' = page_requests w
        /\ (pageNumPending (this w') = pageNumPending (this w)
            \/ pageNumPending (this w') = Some (pageNum (this w) + 1))).
Proof.
  intros Hflag.
  assert (forall P, pageRendering (this (navigateToPage P w)) = true
                    /\ pageNum (this (navigateToPage P w)) = pageNum (this w)
                    /\ page_requests (navigateToPage P w) = page_requests w
                    /\ (pageNumPending (this (navigateToPage P w))
                        = pageNumPending (this w)
                        \/ pageNumPending (this (navigateToPage P w)) = Some P)
                    /\ navigateToPage P (navigateToPage P w)
                       = navigateToPage P w) as Hnav.
  { intros P.
    assert (navigateToPage P w = w
            \/ navigateToPage P w = on_this (set_pageNumPending (Some P)) w
               /\ navigateToPage P (on_this (set_pageNumPending (Some P)) w)
                  = on_this (set_pageNumPending (Some P)) w)
      as [Hsame|[Hqueue Hagain]].
    { destruct (pdfDoc (this w)) as [doc|] eqn:Hdoc.
      - destruct (decide (1 <= P <= numPages doc)) as [HP|HP].
        + right. split; [by apply (navigateToPage_queues w doc)|].
          by rewrite (navigateToPage_queues
                        (on_this (set_pageNumPending (Some P)) w) doc P Hdoc
                        Hflag HP).
        + left. apply (navigateToPage_out_of_range w doc); [exact Hdoc|lia].
      - left. unfold navigateToPage. by rewrite Hdoc. }
    - rewrite !Hsame. repeat split; try done. by left.
    - rewrite !Hqueue, Hagain. repeat split; try done. by right. }
  split; [|split].
  - cbn [replicate run step].
    destruct (Hnav (pageNum (this w) + 1)) as (Hf & Hn & _ & _ & Hidem).
    induction n as [|n IH]; [reflexivity|].
    cbn [replicate run step]. by rewrite Hn, Hidem.
  - cbn [replicate run step].
    destruct (Hnav (pageNum (this w) - 1)) as (Hf & Hn & _ & _ & Hidem).
    induction n as [|n IH]; [reflexivity|].
    cbn [replicate run step]. by rewrite Hn, Hidem.
  - intros w' Hstep. cbn [step] in Hstep. inversion Hstep; subst.
    destruct (Hnav (pageNum (this w) + 1)) as (_ & Hn & Hr & Hp & _).
    by repeat split.
Qed.

Lemma clicks_do_not_add_up_rendering :
  pageRendering (this Fixture.rendering) = true
  /\ run [NextClicked; NextClicked; NextClicked] Fixture.rendering
     = step NextClicked Fixture.rendering
  /\ (pageNumPending <$> (this <$> step NextClicked Fixture.rendering))
     = Some (Some 2).
Proof.
  assert (pageRendering (this Fixture.rendering) = true) as Hflag
    by (vm_compute; reflexivity).
  split; [exact Hflag|]. split.
  - apply (clicks_do_not_add_up Fixture.rendering 2 Hflag).
  - vm_compute. reflexivity.
Defined.

(** X9.  A document that is opened while a render is in progress replaces
    the handle and resets the current page to 1, but no render is started
    for it: [renderCurrentPage] returns at its guard, so [loadPDF] goes on
    without waiting.  When the render in progress ends with an empty slot,
    the flag goes down and still no page of the new document has been asked
    of the library. *)
Theorem document_opened_while_rendering (w : World) (i : nat)
    (doc : PDFDocumentProxy) (w1 : World) :
  pageRendering (this w) = true ->
  pageNumPending (this w) = None ->
  step (DocumentOpened i (Resolved doc)) w = Some w1 ->
  pdfDoc (this w1) = Some doc
  /\ pageNum (this w1) = 1
  /\ pageRendering (this w1) = true
  /\ page_requests w1 = page_requests w
  /\ frames w1 = delete i (frames w) ++ [LoadAwaitingRender None]
  /\ forall e w2,
       ends_render e = true -> step e w1 = Some w2 ->
       pageRendering (this w2) = false
       /\ pdfDoc (this w2) = Some doc /\ pageNum (this w2) = 1
       /\ page_requests w2 = page_requests w.
Proof.
  intros Hflag Hslot Hstep. cbn [step] in Hstep. take_frame Hstep i w.
  inversion Hstep; subst; clear Hstep.
  unfold loadPDF_gotDocument, renderCurrentPage.
  cbn [this on_this pdfDoc set_pageNum set_pdfDoc pageRendering set_frames].
  rewrite Hflag.
  split; [reflexivity|]. split; [reflexivity|]. split; [exact Hflag|].
  split; [reflexivity|]. split; [reflexivity|].
  intros e w2 Hend Hstep.
  destruct (ends_render_step e _ w2 Hend Hstep)
    as (j & f & c & w0 & _ & _ & -> & Hnav & _).
  injection Hnav as Hd0 Hn0 Hf0 Hp0 Hr0 Hc0.
  cbn in Hd0, Hn0, Hp0. change (page_requests w0 = page_requests w) in Hr0.
  destruct (nav_finally c w0)
    as (_ & Hdoc & [(Hdown & Hpage & Hreq & _)|(P & doc' & HP & _)]);
    cbn [nav nav_doc nav_page nav_rendering nav_requests nav_pending] in *.
  - repeat split; congruence.
  - congruence.
Qed.

Lemma document_opened_while_rendering_doc3 :
  exists w0 w1 w2,
    run (Fixture.opening ++ [FileChosen (Some Fixture.some_file);
                             FileRead 2 (Resolved [])])
      (constructor Fixture.blank) = Some w0
    /\ step (DocumentOpened 2 (Resolved {| numPages := 7 |})) w0 = Some w1
    /\ step (PageFetched 0 (Rejected "late")) w1 = Some w2
    /\ pdfDoc (this w2) = Some {| numPages := 7 |}
    /\ pageRendering (this w2) = false
    /\ page_requests w2 = [1].
Proof.
  set (es := Fixture.opening ++ _).
  set (w0 := Fixture.after es).
  set (e1 := DocumentOpened 2 (Resolved {| numPages := 7 |})).
  set (w1 := default w0 (step e1 w0)).
  set (e2 := PageFetched 0 (Rejected "late")).
  set (w2 := default w1 (step e2 w1)).
  assert (step e1 w0 = Some w1) as Hstep1 by (vm_compute; reflexivity).
  assert (step e2 w1 = Some w2) as Hstep2 by (vm_compute; reflexivity).
  exists w0, w1, w2. split; [vm_compute; reflexivity|].
  split; [exact Hstep1|]. split; [exact Hstep2|].
  destruct (document_opened_while_rendering w0 2 {| numPages := 7 |} w1
              eq_refl eq_refl Hstep1) as (_ & _ & _ & _ & _ & Hend).
  destruct (Hend e2 w2 eq_refl Hstep2) as (Hdown & Hdoc & _ & Hreq).
  split; [exact Hdoc|]. split; [exact Hdown|]. rewrite Hreq.
  vm_compute. reflexivity.
Defined.

End NavigationMore.

(** ** What a step does outside the navigation state *)

Section Effects.

(** The browser apart from the elements and the container. *)
Record Chrome := {
  chrome_controls : jsstring * bool * bool;
  chrome_dark : gset string * jsstring * gmap string string;
  chrome_console : list ConsoleEntry;
  chrome_alerts : list string
}.

Definition chrome (b : Browser) : Chrome :=
  {| chrome_controls :=
       (pageInfo b, prevPage_disabled b, nextPage_disabled b);
     chrome_dark := (bodyClassList b, darkModeToggle b, localStorage b);
     chrome_console := console b; chrome_alerts := alerts b |}.

Lemma chrome_createElement tag cls b :
  chrome (snd (createElement tag cls b)) = chrome b.
Proof. reflexivity. Qed.

Lemma chrome_createParticles count container : forall b,
  chrome (createParticles count container b) = chrome b.
Proof.
  induction count as [|count IH]; intros b; [reflexivity|].
  cbn [createParticles]. unfold createElement. by rewrite IH.
Qed.

Lemma chrome_appendChild parent child b :
  chrome (appendChild parent child b) = chrome b.
Proof. reflexivity. Qed.

Lemma chrome_set_textContent id s b : chrome (set_textContent id s b) = chrome b.
Proof. reflexivity. Qed.

Lemma chrome_set_nodes m next b : chrome (set_nodes m next b) = chrome b.
Proof. reflexivity. Qed.

Lemma chrome_build_page n b : chrome (snd (build_page n b)) = chrome b.
Proof.
  cbv beta iota zeta delta [build_page createElement snd].
  rewrite !chrome_appendChild, chrome_createParticles, chrome_set_nodes,
    chrome_set_textContent, !chrome_set_nodes.
  reflexivity.
Qed.

Lemma chrome_append_text_items container items : forall b,
  chrome (foldl (append_text_item container) b items) = chrome b.
Proof.
  induction items as [|item items IH]; intros b; [reflexivity|].
  cbn [foldl]. by rewrite IH.
Qed.

Lemma chrome_updateUI w :
  chrome_dark (chrome (page (updateUI w))) = chrome_dark (chrome (page w))
  /\ chrome_console (chrome (page (updateUI w)))
     = chrome_console (chrome (page w))
  /\ chrome_alerts (chrome (page (updateUI w)))
     = chrome_alerts (chrome (page w)).
Proof. unfold updateUI. by destruct (pdfDoc (this w)). Qed.

Lemma alerts_navigateToPage P w :
  alerts (page (navigateToPage P w)) = alerts (page w).
Proof. by destruct (navigateToPage_quiet P w) as (_ & -> & _). Qed.

Lemma alerts_finally c w :
  alerts (page (renderCurrentPage_finally c w)) = alerts (page w).
Proof. by destruct (finally_quiet c w) as (_ & -> & _). Qed.

(** What one step adds to the alerts. *)
Lemma alerts_step e w w' :
  step e w = Some w' ->
  alerts (page w')
  = alerts (page w)
      ++ match load_error e with Some _ => [load_alert] | None => [] end.
Proof.
  intros Hstep.
  destruct e as [file| | |sel| |i r|i r|i|i r|i r|i]; cbn [step] in Hstep;
    cbn [load_error].
  - inversion Hstep; subst. rewrite app_nil_r. by destruct file.
  - inversion Hstep; subst. by rewrite app_nil_r, alerts_navigateToPage.
  - inversion Hstep; subst. by rewrite app_nil_r, alerts_navigateToPage.
  - inversion Hstep; subst. rewrite app_nil_r. by destruct (trim sel).
  - inversion Hstep; subst. by rewrite app_nil_r.
  - take_frame Hstep i w. inversion Hstep; subst; clear Hstep.
    destruct r as [buf|err]; [by rewrite app_nil_r|reflexivity].
  - take_frame Hstep i w. inversion Hstep; subst; clear Hstep.
    destruct r as [doc|err]; [|reflexivity]. rewrite app_nil_r.
    unfold loadPDF_gotDocument, renderCurrentPage.
    cbn [this on_this pdfDoc set_pageNum set_pdfDoc pageRendering
           set_frames].
    by destruct (pageRendering (this w)).
  - take_frame Hstep i w. inversion Hstep; subst; clear Hstep.
    rewrite app_nil_r. unfold loadPDF_rendered.
    by destruct (updateUI_frame (set_frames (delete i (frames w)) w))
      as (_ & _ & _ & _ & _ & _ & _ & _ & _ & _ & _ & ->).
  - take_frame Hstep i w. inversion Hstep; subst; clear Hstep.
    rewrite app_nil_r. unfold renderCurrentPage_gotPage.
    destruct r as [pg|err]; [|by rewrite alerts_finally].
    destruct (getViewport pg) as [v|err]; [|by rewrite alerts_finally].
    pose proof (chrome_build_page (pageNum (this w)) (page w)) as Hchrome.
    cbn [this call_pdfjs set_frames page] in *.
    destruct (build_page _ _) as [[pw tc] b']. cbn [snd] in Hchrome.
    by injection Hchrome.
  - take_frame Hstep i w. inversion Hstep; subst; clear Hstep.
    rewrite app_nil_r. unfold renderTextContent_gotText.
    destruct r as [items|err]; [|reflexivity].
    cbn [this console_log on_page set_frames textContainer].
    destruct (textContainer (this w)) as [tc|].
    + cbn [suspend set_frames page on_page].
      match goal with
      | |- context [foldl (append_text_item tc) ?b0 ?l] =>
          pose proof (chrome_append_text_items tc l b0) as Hchrome
      end.
      by injection Hchrome.
    + by destruct (processItem <$> items).
  - take_frame Hstep i w. inversion Hstep; subst; clear Hstep.
    unfold renderCurrentPage_rendered. by rewrite app_nil_r, alerts_finally.
Qed.

(** The failed loads among the events of a run. *)
Definition failed_loads (es : list Event) : nat :=
  length (omap load_error es).

(** X10.  The reader raises an alert when a load fails and at no other
    time: over any run, the alerts grow by one copy of the load message per
    failed load (a file that cannot be read, a file the library rejects).
    Errors of a render raise none. *)
Theorem one_alert_per_failed_load (es : list Event) (w w' : World) :
  run es w = Some w' ->
  alerts (page w')
  = alerts (page w) ++ replicate (failed_loads es) load_alert.
Proof.
  revert w. induction es as [|e es IH]; intros w Hrun; cbn [run] in Hrun.
  - inversion Hrun; subst. by rewrite app_nil_r.
  - destruct (step e w) as [w1|] eqn:Hstep; [|discriminate].
    rewrite (IH w1 Hrun), (alerts_step e w w1 Hstep), <- app_assoc.
    f_equal. unfold failed_loads.
    change (omap load_error (e :: es))
      with (match load_error e with
            | Some err => err :: omap load_error es
            | None => omap load_error es
            end).
    by destruct (load_error e).
Qed.

Lemma one_alert_per_failed_load_doc3 :
  exists w',
    run (Fixture.opening
           ++ [PageFetched 0 (Rejected "no page");
               FileChosen (Some Fixture.some_file);
               FileRead 1 (Rejected "unreadable")])
      (constructor Fixture.blank) = Some w'
    /\ alerts (page w') = [load_alert].
Proof.
  set (es := Fixture.opening ++ _).
  set (w' := Fixture.after es).
  assert (run es (constructor Fixture.blank) = Some w') as Hrun
    by (vm_compute; reflexivity).
  exists w'. split; [exact Hrun|].
  rewrite (one_alert_per_failed_load es _ w' Hrun). vm_compute. reflexivity.
Defined.

(** *** The controls and the state they reflect *)

(** What the page-info label and the two buttons show. *)
Definition shown (w : World) : jsstring * bool * bool :=
  chrome_controls (chrome (page w)).

(** The controls show what [updateUI] would write now. *)
Definition controls_current (w : World) : Prop :=
  shown (updateUI w) = shown w.

(** A [loadPDF] is suspended at line 92: its document is open, its
    [updateUI] has not run yet. *)
Definition load_waiting (f : Frame) : bool :=
  match f with
  | LoadAwaitingRender _ => true
  | _ => false
  end.

Definition loads_waiting (w : World) : bool :=
  existsb load_waiting (frames w).

Lemma shown_updateUI_depends w w' :
  pdfDoc (this w') = pdfDoc (this w) -> pageNum (this w') = pageNum (this w) ->
  shown (updateUI w') = shown (updateUI w).
Proof. intros Hdoc Hnum. unfold updateUI. rewrite Hdoc, Hnum.
  by destruct (pdfDoc (this w)). Qed.

Lemma controls_current_updateUI w : controls_current (updateUI w).
Proof.
  unfold controls_current. apply shown_updateUI_depends;
    by destruct (updateUI_frame w) as (-> & _).
Qed.

Lemma controls_current_transfer w w' :
  pdfDoc (this w') = pdfDoc (this w) -> pageNum (this w') = pageNum (this w) ->
  shown w' = shown w ->
  controls_current w -> controls_current w'.
Proof.
  intros Hdoc Hnum Hshown Hcur. unfold controls_current.
  by rewrite (shown_updateUI_depends w w' Hdoc Hnum), Hshown.
Qed.

Lemma controls_current_navigateToPage P w :
  controls_current w -> controls_current (navigateToPage P w).
Proof.
  intros Hcur. unfold navigateToPage.
  destruct (pdfDoc (this w)); [|exact Hcur].
  destruct (_ || _); [exact Hcur|].
  destruct (pageRendering (this w));
    [by eapply controls_current_transfer; [| | |exact Hcur]|].
  apply controls_current_updateUI.
Qed.

Lemma controls_current_finally c w :
  controls_current w -> controls_current (renderCurrentPage_finally c w).
Proof.
  intros Hcur. unfold renderCurrentPage_finally.
  eapply (controls_current_transfer
            (match pageNumPending (this (on_this (set_pageRendering false) w))
             with
             | Some pendingPage =>
                 navigateToPage pendingPage
                   (on_this (set_pageNumPending None)
                      (on_this (set_pageRendering false) w))
             | None => on_this (set_pageRendering false) w
             end)); try reflexivity.
  destruct (pageNumPending _).
  - apply controls_current_navigateToPage.
    by eapply controls_current_transfer; [| | |exact Hcur].
  - by eapply controls_current_transfer; [| | |exact Hcur].
Qed.

Lemma loads_waiting_delete l i f :
  l !! i = Some f -> load_waiting f = false ->
  existsb load_waiting (delete i l) = existsb load_waiting l.
Proof.
  revert i. induction l as [|x l IH]; intros [|i] Hi Hf; try discriminate.
  - simpl in Hi. inversion Hi; subst. simpl. by rewrite Hf.
  - simpl in Hi. simpl. by rewrite (IH i Hi Hf).
Qed.

Lemma loads_waiting_settle c w :
  loads_waiting (settle c w) = loads_waiting w.
Proof.
  unfold loads_waiting. cbn [settle frames set_frames].
  induction (frames w) as [|f l IH]; [reflexivity|].
  rewrite fmap_cons. cbn [existsb]. rewrite IH. f_equal.
  destruct f as [| |[c0|]| | |]; try reflexivity.
  by destruct (Nat.eqb c0 c).
Qed.

Lemma loads_waiting_navigateToPage P w :
  loads_waiting (navigateToPage P w) = loads_waiting w.
Proof.
  unfold navigateToPage. destruct (pdfDoc (this w)) as [doc|] eqn:Hdoc;
    [|reflexivity].
  destruct (_ || _); [reflexivity|].
  destruct (pageRendering (this w)) eqn:Hflag; [reflexivity|].
  unfold loads_waiting.
  destruct (updateUI_frame
              (fst (renderCurrentPage (on_this (set_pageNum P) w))))
    as (_ & -> & _).
  unfold renderCurrentPage. cbn [this on_this pdfDoc pageRendering set_pageNum].
  rewrite Hdoc, Hflag. cbn [fst suspend frames set_frames call_pdfjs
                              set_cycles on_this].
  rewrite existsb_app. cbn. by rewrite orb_false_r.
Qed.

Lemma loads_waiting_finally c w :
  loads_waiting (renderCurrentPage_finally c w) = loads_waiting w.
Proof.
  unfold renderCurrentPage_finally. rewrite loads_waiting_settle.
  destruct (pageNumPending _); [|reflexivity].
  by rewrite loads_waiting_navigateToPage.
Qed.

(** One step keeps the controls current, unless it leaves a load waiting. *)
Lemma controls_current_step e w w' :
  step e w = Some w' ->
  (loads_waiting w = false -> controls_current w) ->
  loads_waiting w' = false -> controls_current w'.
Proof.
  intros Hstep Hinv Hnone.
  destruct e as [file| | |sel| |i r|i r|i|i r|i r|i]; cbn [step] in Hstep.
  - inversion Hstep; subst. destruct file as [file|]; [|by apply Hinv].
    unfold loads_waiting, loadPDF in Hnone.
    cbn [suspend frames set_frames] in Hnone. rewrite existsb_app in Hnone.
    apply orb_false_elim in Hnone as [Hnone _].
    by eapply controls_current_transfer; [| | |exact (Hinv Hnone)].
  - inversion Hstep; subst. rewrite loads_waiting_navigateToPage in Hnone.
    by apply controls_current_navigateToPage, Hinv.
  - inversion Hstep; subst. rewrite loads_waiting_navigateToPage in Hnone.
    by apply controls_current_navigateToPage, Hinv.
  - inversion Hstep; subst. destruct (trim sel); [by apply Hinv|].
    by eapply controls_current_transfer; [| | |exact (Hinv Hnone)].
  - inversion Hstep; subst.
    by eapply controls_current_transfer; [| | |exact (Hinv Hnone)].
  - take_frame Hstep i w. inversion Hstep; subst; clear Hstep.
    assert (loads_waiting w = false) as Hw.
    { unfold loads_waiting. rewrite <- (loads_waiting_delete _ i _ Hf eq_refl).
      destruct r as [buf|err]; [|exact Hnone].
      unfold loads_waiting, loadPDF_gotBuffer in Hnone.
      cbn [suspend frames set_frames call_pdfjs] in Hnone.
      rewrite existsb_app in Hnone.
      by apply orb_false_elim in Hnone as [Hnone _]. }
    eapply controls_current_transfer; [| | |exact (Hinv Hw)];
      by destruct r.
  - take_frame Hstep i w. inversion Hstep; subst; clear Hstep.
    destruct r as [doc|err].
    + exfalso. unfold loads_waiting, loadPDF_gotDocument in Hnone.
      destruct (renderCurrentPage _) as [w1 promise].
      cbn [suspend frames set_frames] in Hnone.
      rewrite existsb_app in Hnone. cbn in Hnone.
      by rewrite orb_true_r in Hnone.
    + assert (loads_waiting w = false) as Hw.
      { unfold loads_waiting.
        by rewrite <- (loads_waiting_delete _ i _ Hf eq_refl). }
      by eapply controls_current_transfer; [| | |exact (Hinv Hw)].
  - take_frame Hstep i w. inversion Hstep; subst; clear Hstep.
    apply controls_current_updateUI.
  - take_frame Hstep i w. inversion Hstep; subst; clear Hstep.
    assert (existsb load_waiting (delete i (frames w))
            = loads_waiting w) as Hdel
      by (by apply (loads_waiting_delete _ i _ Hf)).
    unfold renderCurrentPage_gotPage in *.
    destruct r as [pg|err].
    + destruct (getViewport pg) as [v|err].
      * pose proof (chrome_build_page (pageNum (this w)) (page w)) as Hchrome.
        cbn [this call_pdfjs set_frames page] in *.
        destruct (build_page _ _) as [[pw tc] b']. cbn [snd] in Hchrome.
        unfold loads_waiting in Hnone.
        cbn [suspend frames set_frames call_pdfjs on_this on_page] in Hnone.
        rewrite existsb_app, Hdel in Hnone.
        apply orb_false_elim in Hnone as [Hnone _].
        eapply controls_current_transfer; [| | |exact (Hinv Hnone)];
          try reflexivity.
        unfold shown. cbn [suspend page set_frames call_pdfjs on_this on_page].
        by rewrite Hchrome.
      * rewrite loads_waiting_finally in Hnone.
        apply controls_current_finally.
        eapply controls_current_transfer;
          [| | |exact (Hinv (eq_trans (eq_sym Hdel) Hnone))]; reflexivity.
    + rewrite loads_waiting_finally in Hnone.
      apply controls_current_finally.
      eapply controls_current_transfer;
        [| | |exact (Hinv (eq_trans (eq_sym Hdel) Hnone))]; reflexivity.
  - take_frame Hstep i w. inversion Hstep; subst; clear Hstep.
    assert (existsb load_waiting (delete i (frames w))
            = loads_waiting w) as Hdel
      by (by apply (loads_waiting_delete _ i _ Hf)).
    unfold loads_waiting in Hnone. cbn [suspend frames set_frames] in Hnone.
    rewrite frames_renderTextContent_gotText in Hnone.
    cbn [frames set_frames] in Hnone.
    rewrite existsb_app, Hdel in Hnone.
    apply orb_false_elim in Hnone as [Hnone _].
    pose proof (nav_renderTextContent_gotText r
                  (set_frames (delete i (frames w)) w)) as Hnav.
    injection Hnav as Hd Hn _ _ _ _.
    eapply controls_current_transfer; [exact Hd|exact Hn| |exact (Hinv Hnone)].
    unfold shown, renderTextContent_gotText.
    destruct r as [items|err]; [|reflexivity].
    cbn [this console_log on_page set_frames textContainer].
    destruct (textContainer (this w)) as [tc|].
    + cbn [suspend set_frames page on_page].
      by rewrite chrome_append_text_items.
    + by destruct (processItem <$> items).
  - take_frame Hstep i w. inversion Hstep; subst; clear Hstep.
    assert (existsb load_waiting (delete i (frames w))
            = loads_waiting w) as Hdel
      by (by apply (loads_waiting_delete _ i _ Hf)).
    unfold renderCurrentPage_rendered in *.
    rewrite loads_waiting_finally in Hnone.
    apply controls_current_finally.
    eapply controls_current_transfer;
      [| | |exact (Hinv (eq_trans (eq_sym Hdel) Hnone))]; reflexivity.
Qed.

Lemma controls_current_reachable b w :
  reachable b w -> loads_waiting w = false -> controls_current w.
Proof.
  induction 1 as [|w e w' _ IH Hstep].
  - intros _. unfold constructor. apply controls_current_updateUI.
  - by eapply controls_current_step.
Qed.

(** X11.  In every reachable world in which no [loadPDF] is waiting for its
    first render (line 92), the page-info label and the two buttons show
    the state of the reader: without a document "No PDF loaded" and both
    buttons disabled, with one "Page X of N" for the current page and the
    buttons disabled at the first and the last page. *)
Theorem controls_show_current_state (b : Browser) (w : World) :
  reachable b w ->
  loads_waiting w = false ->
  match pdfDoc (this w) with
  | None =>
      pageInfo (page w) = lit "No PDF loaded"
      /\ prevPage_disabled (page w) = true
      /\ nextPage_disabled (page w) = true
  | Some doc =>
      pageInfo (page w)
      = lit "Page " ++ ToString (pageNum (this w)) ++ lit " of "
          ++ ToString (numPages doc)
      /\ prevPage_disabled (page w) = (pageNum (this w) <=? 1)
      /\ nextPage_disabled (page w) = (pageNum (this w) >=? numPages doc)
  end.
Proof.
  intros Hreach Hnone.
  pose proof (controls_current_reachable b w Hreach Hnone) as Hcur.
  unfold controls_current, shown, updateUI in Hcur.
  destruct (pdfDoc (this w)) as [doc|]; by injection Hcur as <- <- <-.
Qed.

Lemma controls_show_page_2_of_3 :
  reachable Fixture.blank
    (Fixture.after (Fixture.opening ++ Fixture.first_render ++ [NextClicked]))
  /\ pageInfo
       (page (Fixture.after
                (Fixture.opening ++ Fixture.first_render ++ [NextClicked])))
     = lit "Page 2 of 3".
Proof.
  set (w := Fixture.after _).
  assert (reachable Fixture.blank w) as Hreach.
  { eapply after_reachable. vm_compute. reflexivity. }
  split; [exact Hreach|].
  pose proof (controls_show_current_state Fixture.blank w Hreach
                ltac:(vm_compute; reflexivity)) as Hshow.
  replace (pdfDoc (this w)) with (Some Fixture.doc3) in Hshow
    by (vm_compute; reflexivity).
  destruct Hshow as (-> & _).
  vm_compute. reflexivity.
Defined.

End Effects.

(** ** The page a render builds (lines 116-149, 188-214, 284-295) *)

Section Rendering.

Definition with_children (l : list nat) (e : Element) : Element :=
  {| tagName := tagName e; className := className e;
     textContent := textContent e; childNodes := childNodes e ++ l |}.

(** A new element is created as [el] and appended to [parent]. *)
Definition push (el : Element) (parent : nat) (b : Browser) : Browser :=
  appendChild parent (nextNode b)
    (set_nodes (<[nextNode b := el]> (nodes b)) (S (nextNode b)) b).

Definition particle_element : Element :=
  {| tagName := "div"; className := "particle"; textContent := [];
     childNodes := [] |}.

Definition span_element (s : jsstring) : Element :=
  {| tagName := "span"; className := "text-item"; textContent := s;
     childNodes := [] |}.

Lemma createParticles_push count container : forall b,
  createParticles count container b
  = foldl (fun b el => push el container b) b
      (replicate count particle_element).
Proof.
  induction count as [|count IH]; intros b; [reflexivity|].
  cbn [createParticles replicate foldl]. unfold createElement.
  by rewrite IH.
Qed.

Lemma append_text_item_push container b item :
  append_text_item container b item
  = push (span_element (str item)) container b.
Proof.
  unfold append_text_item, createElement, set_textContent, push.
  cbn [nodes nextNode set_nodes]. by rewrite alter_insert_eq.
Qed.

Lemma append_text_items_push container items : forall b,
  foldl (append_text_item container) b items
  = foldl (fun b el => push el container b) b
      (span_element <$> (str <$> items)).
Proof.
  induction items as [|item items IH]; intros b; [reflexivity|].
  rewrite !fmap_cons. cbn [foldl]. by rewrite IH, append_text_item_push.
Qed.

Lemma with_children_app l1 l2 (x : option Element) :
  with_children l2 <$> (with_children l1 <$> x)
  = with_children (l1 ++ l2) <$> x.
Proof.
  destruct x as [e|]; [|reflexivity]. cbn. unfold with_children. cbn.
  by rewrite app_assoc.
Qed.

Lemma with_children_nil (x : option Element) : with_children [] <$> x = x.
Proof.
  destruct x as [[t c s k]|]; [|reflexivity]. cbn. unfold with_children.
  cbn. by rewrite app_nil_r.
Qed.

(** Pushing a list of elements under a parent that exists already: the
    parent gets their identities as further children, in order; each new
    element is stored as given; older elements are untouched. *)
Lemma push_all parent els : forall b,
  (parent < nextNode b)%nat ->
  nextNode (foldl (fun b el => push el parent b) b els)
  = (nextNode b + length els)%nat
  /\ nodes (foldl (fun b el => push el parent b) b els) !! parent
     = with_children (seq (nextNode b) (length els)) <$> nodes b !! parent
  /\ (forall j el, els !! j = Some el ->
        nodes (foldl (fun b el => push el parent b) b els)
          !! (nextNode b + j)%nat = Some el)
  /\ (forall id, (id < nextNode b)%nat -> id <> parent ->
        nodes (foldl (fun b el => push el parent b) b els) !! id
        = nodes b !! id)
  /\ pdfContainer (foldl (fun b el => push el parent b) b els)
     = pdfContainer b.
Proof.
  induction els as [|el els IH]; intros b Hparent.
  - cbn [foldl length seq]. rewrite Nat.add_0_r, with_children_nil.
    repeat split; done.
  - cbn [foldl length].
    assert (nextNode (push el parent b) = S (nextNode b)) as Hnext
      by reflexivity.
    assert (forall id, id <> parent ->
              nodes (push el parent b) !! id
              = <[nextNode b := el]> (nodes b) !! id) as Hother.
    { intros id Hid. unfold push, appendChild. cbn [nodes set_nodes].
      by rewrite lookup_alter_ne. }
    assert (nodes (push el parent b) !! parent
            = with_children [nextNode b] <$> nodes b !! parent) as Hpar.
    { unfold push, appendChild. cbn [nodes set_nodes].
      rewrite lookup_alter_eq, lookup_insert_ne by lia. reflexivity. }
    destruct (IH (push el parent b)) as (Hn & Hp & Hnew & Hold & Hcont);
      [rewrite Hnext; lia|].
    rewrite Hnext in *.
    split; [rewrite Hn; lia|]. split; [|split; [|split]].
    + rewrite Hp, Hpar, with_children_app. reflexivity.
    + intros [|j] el' Hj.
      * cbn in Hj. inversion Hj; subst. rewrite Nat.add_0_r.
        rewrite Hold, Hother by lia. by rewrite lookup_insert_eq.
      * cbn in Hj. replace (nextNode b + S j)%nat
          with (S (nextNode b) + j)%nat by lia.
        by apply Hnew.
    + intros id Hid Hne. rewrite Hold, Hother by lia.
      by rewrite lookup_insert_ne by lia.
    + by rewrite Hcont.
Qed.

(** The detached page of lines 120-144, element by element. *)
Lemma build_page_structure n b :
  let p := nextNode b in
  let b' := snd (build_page n b) in
  fst (build_page n b) = (p, S p)
  /\ nextNode b' = (p + 12)%nat
  /\ pdfContainer b' = []
  /\ nodes b' !! p
     = Some {| tagName := "div"; className := "text-page-wrapper";
               textContent := []; childNodes := [S p] |}
  /\ nodes b' !! S p
     = Some {| tagName := "div"; className := "text-page zoom-in";
               textContent := [];
               childNodes := [(p + 2)%nat; (p + 3)%nat] |}
  /\ nodes b' !! (p + 2)%nat
     = Some {| tagName := "div"; className := "page-indicator";
               textContent := page_indicator_prefix ++ ToString n;
               childNodes := [] |}
  /\ nodes b' !! (p + 3)%nat
     = Some {| tagName := "div"; className := "text-page-particles";
               textContent := []; childNodes := seq (p + 4) 8 |}
  /\ (forall j, (j < 8)%nat ->
        nodes b' !! (p + 4 + j)%nat = Some particle_element)
  /\ (forall id, (id < p)%nat -> nodes b' !! id = nodes b !! id).
Proof.
  intros p b'. subst b'.
  cbv beta iota zeta delta [build_page createElement fst snd].
  cbn [nodes nextNode set_nodes set_textContent clearElement_container
         set_pdfContainer].
  fold p. rewrite createParticles_push.
  match goal with
  | |- context [foldl _ ?b0 (replicate 8 particle_element)] =>
      set (b4 := b0);
      destruct (push_all (S (S (S p))) (replicate 8 particle_element) b4)
        as (Hn & Hp & Hnew & Hold & Hcont); [cbn; lia|];
      set (b5 := foldl _ b4 (replicate 8 particle_element)) in *
  end.
  assert (nextNode b4 = S (S (S (S p)))) as Hnext4 by reflexivity.
  rewrite Hnext4 in *. rewrite length_replicate in *.
  unfold appendChild. cbn [nodes nextNode set_nodes pdfContainer].
  split; [reflexivity|]. split; [rewrite Hn; lia|].
  split; [by rewrite Hcont|].
  assert (forall id, (id < S (S (S p)))%nat ->
            nodes b5 !! id = nodes b4 !! id) as Hlow.
  { intros id Hid. apply Hold; lia. }
  split; [|split; [|split; [|split; [|split]]]].
  - rewrite lookup_alter_eq, !lookup_alter_ne, Hlow by lia.
    subst b4. cbn [nodes set_nodes]. rewrite lookup_insert_ne, lookup_alter_ne by lia.
    by rewrite !lookup_insert_ne, lookup_insert_eq by lia.
  - rewrite lookup_alter_ne, lookup_alter_eq, lookup_alter_eq, Hlow by lia.
    subst b4. cbn [nodes set_nodes]. rewrite lookup_insert_ne, lookup_alter_ne by lia.
    rewrite lookup_insert_ne, lookup_insert_eq by lia. cbn.
    replace (p + 2)%nat with (S (S p)) by lia.
    by replace (p + 3)%nat with (S (S (S p))) by lia.
  - replace (p + 2)%nat with (S (S p)) by lia.
    rewrite !lookup_alter_ne, Hlow by lia.
    subst b4. cbn [nodes set_nodes]. rewrite lookup_insert_ne, lookup_alter_eq by lia.
    by rewrite lookup_insert_eq.
  - replace (p + 3)%nat with (S (S (S p))) by lia.
    rewrite !lookup_alter_ne, Hp by lia.
    subst b4. cbn [nodes set_nodes]. rewrite lookup_insert_eq. cbn.
    by replace (p + 4)%nat with (S (S (S (S p)))) by lia.
  - intros j Hj. rewrite !lookup_alter_ne by lia.
    replace (p + 4 + j)%nat with (S (S (S (S p))) + j)%nat by lia.
    apply Hnew. by apply lookup_replicate_2.
  - intros id Hid. rewrite !lookup_alter_ne, Hlow by lia.
    subst b4. cbn [nodes set_nodes]. rewrite lookup_insert_ne, lookup_alter_ne by lia.
    by rewrite !lookup_insert_ne by lia.
Qed.

(** *** The three steps of a successful cycle *)

Lemma step_PageFetched_page w i c pg v :
  frames w !! i = Some (RenderGettingPage c) ->
  getViewport pg = Resolved v ->
  exists w1,
    step (PageFetched i (Resolved pg)) w = Some w1
    /\ page w1 = snd (build_page (pageNum (this w)) (page w))
    /\ textContainer (this w1) = Some (S (nextNode (page w)))
    /\ frames w1
       = delete i (frames w) ++ [RenderGettingText c (nextNode (page w))]
    /\ nav w1 = nav w.
Proof.
  intros Hf Hv. cbn [step]. unfold resume. rewrite Hf.
  rewrite <- (nav_renderCurrentPage_gotPage c pg v
                (set_frames (delete i (frames w)) w) Hv).
  unfold renderCurrentPage_gotPage. rewrite Hv.
  cbn [this call_pdfjs set_frames page].
  destruct (build_page_structure (pageNum (this w)) (page w)) as (Hids & _).
  destruct (build_page (pageNum (this w)) (page w)) as [[pw tc] b'].
  cbn [fst snd] in *. inversion Hids; subst.
  eexists. by repeat split.
Qed.

(** The runs a text request delivered; none when it failed. *)
Definition runs_of (r : Result (list TextItem)) : list TextItem :=
  match r with
  | Resolved items => items
  | Rejected _ => []
  end.

(** The text-arrival step on its own: one span per run, in the order of
    the runs, each holding the processed string, appended to the text
    container; no span when the request failed. *)
Lemma step_TextFetched_page w l c pw tc r :
  frames w = l ++ [RenderGettingText c pw] ->
  textContainer (this w) = Some tc ->
  (tc < nextNode (page w))%nat ->
  exists w2,
    step (TextFetched (length l) r) w = Some w2
    /\ frames w2 = l ++ [RenderTextReturned c pw]
    /\ nav w2 = nav w
    /\ this w2 = this w
    /\ nextNode (page w2) = (nextNode (page w) + length (runs_of r))%nat
    /\ nodes (page w2) !! tc
       = with_children (seq (nextNode (page w)) (length (runs_of r)))
           <$> nodes (page w) !! tc
    /\ (forall j item, runs_of r !! j = Some item ->
          nodes (page w2) !! (nextNode (page w) + j)%nat
          = Some (span_element (remap_dashes (str item))))
    /\ (forall id, (id < nextNode (page w))%nat -> id <> tc ->
          nodes (page w2) !! id = nodes (page w) !! id)
    /\ pdfContainer (page w2) = pdfContainer (page w)
    /\ alerts (page w2) = alerts (page w)
    /\ console (page w2)
       = console (page w)
           ++ match r with
              | Resolved items =>
                  [ConsoleLog "" (remap_dashes (concat (str <$> items)))]
              | Rejected err =>
                  [ConsoleError "Error rendering text content:" err]
              end.
Proof.
  intros Hf Htc Hlt. cbn [step].
  rewrite (step_last_frame w l _ Hf).
  eexists. split; [reflexivity|].
  split.
  { cbn [suspend frames set_frames].
    by rewrite frames_renderTextContent_gotText. }
  split; [by rewrite nav_suspend, nav_renderTextContent_gotText|].
  unfold renderTextContent_gotText. destruct r as [items|err].
  - cbn [this console_log on_page set_frames textContainer runs_of].
    rewrite Htc. cbn [suspend set_frames page on_page this console_log].
    split; [reflexivity|].
    rewrite processed_text_concat.
    match goal with
    | |- context [foldl _ ?b0 ?els] =>
        pose proof (chrome_append_text_items tc els b0) as Hchrome;
        injection Hchrome as _ _ _ _ _ _ Hcon Hal
    end.
    rewrite Hcon, Hal.
    rewrite append_text_items_push.
    match goal with
    | |- context [foldl _ ?b0 ?els] =>
        destruct (push_all tc els b0 Hlt) as (Hn & Hp & Hnew & Hold & Hcont)
    end.
    rewrite !length_fmap in *.
    cbn [nextNode nodes set_console pdfContainer] in *.
    split; [exact Hn|]. split; [exact Hp|].
    split; [|by repeat split].
    intros j item Hj. apply Hnew.
    rewrite !list_lookup_fmap, Hj. reflexivity.
  - cbn [runs_of length seq suspend set_frames page on_page this
           console_error nodes nextNode set_console pdfContainer alerts
           console].
    rewrite Nat.add_0_r, with_children_nil. by repeat split.
Qed.

Lemma step_RenderResumed_page w l c pw :
  frames w = l ++ [RenderTextReturned c pw] ->
  step (RenderResumed (length l)) w
  = Some (renderCurrentPage_finally c
            (on_page (container_appendChild pw) (set_frames l w)))
  /\ pdfContainer
       (page (renderCurrentPage_finally c
                (on_page (container_appendChild pw) (set_frames l w))))
     = pdfContainer (page w) ++ [pw]
  /\ nodes
       (page (renderCurrentPage_finally c
                (on_page (container_appendChild pw) (set_frames l w))))
     = nodes (page w).
Proof.
  intros Hf. cbn [step]. rewrite (step_last_frame w l _ Hf).
  split; [reflexivity|].
  by destruct (finally_quiet c
                 (on_page (container_appendChild pw) (set_frames l w)))
    as (_ & _ & -> & ->).
Qed.

(** The elements of a rendered page whose wrapper is [p], for the page
    number and the text runs given. *)
Definition page_built (p : nat) (n : Z) (items : list TextItem)
    (m : gmap nat Element) : Prop :=
  m !! p
  = Some {| tagName := "div"; className := "text-page-wrapper";
            textContent := []; childNodes := [S p] |}
  /\ m !! S p
     = Some {| tagName := "div"; className := "text-page zoom-in";
               textContent := [];
               childNodes := [(p + 2)%nat; (p + 3)%nat]
                               ++ seq (p + 12) (length items) |}
  /\ m !! (p + 2)%nat
     = Some {| tagName := "div"; className := "page-indicator";
               textContent := page_indicator_prefix ++ ToString n;
               childNodes := [] |}
  /\ m !! (p + 3)%nat
     = Some {| tagName := "div"; className := "text-page-particles";
               textContent := []; childNodes := seq (p + 4) 8 |}
  /\ (forall j, (j < 8)%nat -> m !! (p + 4 + j)%nat = Some particle_element)
  /\ (forall j item, items !! j = Some item ->
        m !! (p + 12 + j)%nat
        = Some (span_element (remap_dashes (str item)))).

(** A cycle that gets its page and its viewport, and then its text or an
    error of the text request, with nothing else happening in between. *)
Lemma whole_cycle w i c pg v r :
  frames w !! i = Some (RenderGettingPage c) ->
  getViewport pg = Resolved v ->
  exists w1 w2 w3,
    step (PageFetched i (Resolved pg)) w = Some w1
    /\ step (TextFetched (length (frames w) - 1) r) w1 = Some w2
    /\ step (RenderResumed (length (frames w) - 1)) w2 = Some w3
    /\ nav w2 = nav w
    /\ frames w2
       = delete i (frames w)
           ++ [RenderTextReturned c (nextNode (page w))]
    /\ w3 = renderCurrentPage_finally c
              (on_page (container_appendChild (nextNode (page w)))
                 (set_frames (delete i (frames w)) w2))
    /\ pdfContainer (page w3) = [nextNode (page w)]
    /\ page_built (nextNode (page w)) (pageNum (this w)) (runs_of r)
         (nodes (page w3))
    /\ (forall id, (id < nextNode (page w))%nat ->
          nodes (page w3) !! id = nodes (page w) !! id)
    /\ alerts (page w3) = alerts (page w)
    /\ console (page w3)
       = console (page w)
           ++ match r with
              | Resolved items =>
                  [ConsoleLog "" (remap_dashes (concat (str <$> items)))]
              | Rejected err =>
                  [ConsoleError "Error rendering text content:" err]
              end.
Proof.
  intros Hf Hv.
  assert (length (delete i (frames w)) = (length (frames w) - 1)%nat) as Hlen.
  { rewrite length_delete; [reflexivity|by eexists]. }
  rewrite <- Hlen.
  destruct (step_PageFetched_page w i c pg v Hf Hv)
    as (w1 & Hstep1 & Hpage1 & Htc1 & Hf1 & Hnav1).
  destruct (build_page_structure (pageNum (this w)) (page w))
    as (_ & Hnext & Hcont & Hpw & Htc & Hind & Hparts & Hparticles & Hold).
  pose proof (chrome_build_page (pageNum (this w)) (page w)) as Hchrome.
  cbn zeta in *. rewrite <- Hpage1 in *.
  injection Hchrome as _ _ _ _ _ _ Hcon1 Hal1.
  set (p := nextNode (page w)) in *.
  destruct (step_TextFetched_page w1 _ c p (S p) r Hf1 Htc1)
    as (w2 & Hstep2 & Hf2 & Hnav2 & Hthis2 & Hnext2 & Htc2 & Hspans & Hold2
        & Hcont2 & Hal2 & Hcon2); [rewrite Hnext; lia|].
  destruct (step_RenderResumed_page w2 _ c p Hf2) as (Hstep3 & Hcont3 & Hn3).
  destruct (finally_quiet c
              (on_page (container_appendChild p)
                 (set_frames (delete i (frames w)) w2)))
    as (Hcon3 & Hal3 & _).
  eexists w1, w2, _. split; [exact Hstep1|]. split; [exact Hstep2|].
  split; [exact Hstep3|]. split; [congruence|]. split; [exact Hf2|].
  split; [reflexivity|].
  split; [by rewrite Hcont3, Hcont2, Hcont|].
  rewrite Hn3, Hnext in *. split; [|split; [|split]].
  - unfold page_built. split; [|split; [|split; [|split; [|split]]]].
    + rewrite Hold2 by lia. exact Hpw.
    + rewrite Htc2, Htc. reflexivity.
    + rewrite Hold2 by lia. exact Hind.
    + rewrite Hold2 by lia. exact Hparts.
    + intros j Hj. rewrite Hold2 by lia. by apply Hparticles.
    + exact Hspans.
  - intros id Hid. rewrite Hold2 by lia. by apply Hold.
  - rewrite Hal3. cbn [page on_page container_appendChild set_pdfContainer
                         alerts set_frames]. congruence.
  - rewrite Hcon3. cbn [page on_page container_appendChild set_pdfContainer
                          console set_frames]. congruence.
Qed.

(** X12.  A render cycle that gets its page, its viewport and its text
    replaces the content of the container by one new page wrapper.  The
    wrapper holds the text container, and the text container holds, in this
    order, the page indicator (its text is the literal prefix followed by
    the current page number), the particle container with its eight
    particles, and one span per text run, in the order of the runs, each
    with the run's processed string.  Elements that existed before are not
    touched. *)
Theorem successful_render_builds_page (w : World) (i c : nat)
    (pg : PDFPageProxy) (v : PageViewport) (items : list TextItem) :
  frames w !! i = Some (RenderGettingPage c) ->
  getViewport pg = Resolved v ->
  exists w',
    run [PageFetched i (Resolved pg);
         TextFetched (length (frames w) - 1) (Resolved items);
         RenderResumed (length (frames w) - 1)] w = Some w'
    /\ pdfContainer (page w') = [nextNode (page w)]
    /\ page_built (nextNode (page w)) (pageNum (this w)) items
         (nodes (page w'))
    /\ (forall id, (id < nextNode (page w))%nat ->
          nodes (page w') !! id = nodes (page w) !! id).
Proof.
  intros Hf Hv.
  destruct (whole_cycle w i c pg v (Resolved items) Hf Hv)
    as (w1 & w2 & w3 & Hstep1 & Hstep2 & Hstep3 & _ & _ & _ & Hcont & Hbuilt
        & Hold & _).
  exists w3. cbn [run]. rewrite Hstep1, Hstep2, Hstep3.
  split; [reflexivity|]. split; [exact Hcont|]. by split.
Qed.

Lemma successful_render_first_page :
  exists w',
    run [PageFetched 0 (Resolved Fixture.page_ok);
         TextFetched 1 (Resolved [ {| str := [0x41; 0x2013]%N;
                                      transform := Matrix 0 |} ]);
         RenderResumed 1] Fixture.rendering = Some w'
    /\ pdfContainer (page w') = [0%nat]
    /\ nodes (page w') !! 12%nat
       = Some (span_element [0x41; 0x201A; 0xC4; 0xEC]%N).
Proof.
  destruct (successful_render_builds_page Fixture.rendering 0 0
              Fixture.page_ok (Viewport 0)
              [ {| str := [0x41; 0x2013]%N; transform := Matrix 0 |} ]
              eq_refl eq_refl)
    as (w' & Hrun & Hcont & (_ & _ & _ & _ & _ & Hspans) & _).
  exists w'. split; [exact Hrun|]. split; [exact Hcont|].
  exact (Hspans 0%nat _ eq_refl).
Defined.

(** X13.  When the text request of a cycle fails, the error is logged and
    the cycle still shows its page: the container has been emptied when the
    page arrived, and it ends up holding the new wrapper with the page
    indicator and the particles but no span.  No alert is raised, and with
    an empty slot the flag is down afterwards. *)
Theorem failed_text_request_shows_empty_page (w : World) (i c : nat)
    (pg : PDFPageProxy) (v : PageViewport) (err : Error) :
  frames w !! i = Some (RenderGettingPage c) ->
  getViewport pg = Resolved v ->
  exists w1 w',
    step (PageFetched i (Resolved pg)) w = Some w1
    /\ pdfContainer (page w1) = []
    /\ run [PageFetched i (Resolved pg);
            TextFetched (length (frames w) - 1) (Rejected err);
            RenderResumed (length (frames w) - 1)] w = Some w'
    /\ pdfContainer (page w') = [nextNode (page w)]
    /\ page_built (nextNode (page w)) (pageNum (this w)) []
         (nodes (page w'))
    /\ console (page w')
       = console (page w)
           ++ [ConsoleError "Error rendering text content:" err]
    /\ alerts (page w') = alerts (page w)
    /\ (pageNumPending (this w) = None -> pageRendering (this w') = false).
Proof.
  intros Hf Hv.
  destruct (whole_cycle w i c pg v (Rejected err) Hf Hv)
    as (w1 & w2 & w3 & Hstep1 & Hstep2 & Hstep3 & Hnav & _ & Hw3 & Hcont
        & Hbuilt & _ & Hal & Hcon).
  exists w1, w3. split; [exact Hstep1|]. split.
  { destruct (step_PageFetched_page w i c pg v Hf Hv)
      as (w1' & Hstep1' & Hpage1 & _).
    rewrite Hstep1 in Hstep1'. inversion Hstep1'; subst w1'.
    rewrite Hpage1.
    by destruct (build_page_structure (pageNum (this w)) (page w))
      as (_ & _ & -> & _). }
  cbn [run]. rewrite Hstep1, Hstep2, Hstep3.
  split; [reflexivity|]. split; [exact Hcont|]. split; [exact Hbuilt|].
  split; [exact Hcon|]. split; [exact Hal|].
  intros Hslot. rewrite Hw3.
  match goal with
  | |- context [renderCurrentPage_finally c ?x] =>
      destruct (nav_finally c x)
        as (_ & _ & [(Hdown & _)|(P & doc & HP & _)])
  end.
  - exact Hdown.
  - injection Hnav as _ _ _ Hp _ _.
    cbn [nav nav_pending this on_page set_frames] in HP. congruence.
Qed.

Lemma failed_text_request_first_page :
  exists w',
    run [PageFetched 0 (Resolved Fixture.page_ok);
         TextFetched 1 (Rejected "worker died"); RenderResumed 1]
      Fixture.rendering = Some w'
    /\ pdfContainer (page w') = [0%nat]
    /\ (childNodes <$> nodes (page w') !! 1%nat) = Some [2%nat; 3%nat]
    /\ pageRendering (this w') = false.
Proof.
  destruct (failed_text_request_shows_empty_page Fixture.rendering 0 0
              Fixture.page_ok (Viewport 0) "worker died" eq_refl eq_refl)
    as (w1 & w' & _ & _ & Hrun & Hcont & (_ & Htc & _) & _ & _ & Hdown).
  assert (nextNode (page Fixture.rendering) = 0%nat) as Hnext
    by (vm_compute; reflexivity).
  rewrite Hnext in Hcont, Htc.
  exists w'. split; [exact Hrun|]. split; [exact Hcont|].
  split; [by rewrite Htc|]. by apply Hdown.
Defined.

Lemma finally_empty_slot c w :
  pageNumPending (this w) = None ->
  renderCurrentPage_finally c w
  = settle c (on_this (set_pageRendering false) w).
Proof.
  intros Hslot. unfold renderCurrentPage_finally.
  cbn [this on_this pageNumPending set_pageRendering]. by rewrite Hslot.
Qed.

(** X14.  Loading a document, start to end.  When no render is in progress
    and the library opens the document, the reader holds the new handle on
    page 1, asks the library for page 1 and for nothing else of that kind,
    and [loadPDF] waits for that render.  Once the cycle has run (with the
    text, or with an error of the text request) and [loadPDF] has resumed,
    the flag is down, the container holds the page built for page 1, the
    label reads "Page 1 of N", the previous button is disabled and the next
    button is disabled exactly when the document has at most one page.  No
    alert is raised. *)
Theorem load_shows_first_page (w : World) (i : nat) (doc : PDFDocumentProxy)
    (pg : PDFPageProxy) (v : PageViewport) (r : Result (list TextItem)) :
  frames w !! i = Some LoadOpeningDocument ->
  pageRendering (this w) = false ->
  pageNumPending (this w) = None ->
  getViewport pg = Resolved v ->
  exists w',
    run [DocumentOpened i (Resolved doc);
         PageFetched (length (frames w) - 1) (Resolved pg);
         TextFetched (length (frames w)) r;
         RenderResumed (length (frames w));
         LoadResumed (length (frames w) - 1)] w = Some w'
    /\ pdfDoc (this w') = Some doc
    /\ pageNum (this w') = 1
    /\ pageRendering (this w') = false
    /\ pageNumPending (this w') = None
    /\ page_requests w' = page_requests w ++ [1]
    /\ pageInfo (page w')
       = lit "Page 1 of " ++ ToString (numPages doc)
    /\ prevPage_disabled (page w') = true
    /\ (nextPage_disabled (page w') = true <-> numPages doc <= 1)
    /\ pdfContainer (page w') = [nextNode (page w)]
    /\ page_built (nextNode (page w)) 1 (runs_of r) (nodes (page w'))
    /\ alerts (page w') = alerts (page w).
Proof.
  intros Hf Hidle Hslot Hv.
  assert (length (delete i (frames w)) = (length (frames w) - 1)%nat) as Hlen.
  { rewrite length_delete; [reflexivity|by eexists]. }
  assert (length (frames w) = S (length (frames w) - 1)) as HS.
  { apply lookup_lt_Some in Hf. lia. }
  set (k := (length (frames w) - 1)%nat) in *. rewrite HS. clear HS.
  set (D := delete i (frames w)) in *.
  (* the document arrives *)
  set (w1 := suspend (LoadAwaitingRender (Some (cycles w)))
               (suspend (RenderGettingPage (cycles w))
                  (call_pdfjs (GetPage 1)
                     (set_cycles (S (cycles w))
                        (on_this (set_pageRendering true)
                           (on_this (set_pageNum 1)
                              (on_this (set_pdfDoc (Some doc))
                                 (set_frames D w)))))))).
  assert (step (DocumentOpened i (Resolved doc)) w = Some w1) as Hstep1.
  { cbn [step]. unfold resume. rewrite Hf.
    unfold loadPDF_gotDocument, renderCurrentPage.
    cbn [this on_this pdfDoc set_pageNum set_pdfDoc pageRendering
           set_frames].
    by rewrite Hidle. }
  assert (frames w1
          = D ++ [RenderGettingPage (cycles w);
                  LoadAwaitingRender (Some (cycles w))]) as Hf1.
  { subst w1. cbn [suspend frames set_frames call_pdfjs set_cycles on_this].
    by rewrite <- app_assoc. }
  assert (frames w1 !! k = Some (RenderGettingPage (cycles w))) as Hk.
  { rewrite Hf1, lookup_app_r, Hlen, Nat.sub_diag by (rewrite Hlen; lia).
    reflexivity. }
  destruct (whole_cycle w1 k (cycles w) pg v r Hk Hv)
    as (w2 & w3 & w4 & Hstep2 & Hstep3 & Hstep4 & Hnav3 & _ & Hw4 & Hcont
        & Hbuilt & _ & Hal & _).
  assert ((length (frames w1) - 1)%nat = S k) as Hlen1.
  { rewrite Hf1, length_app, Hlen. cbn. lia. }
  rewrite Hlen1 in *.
  assert (delete k (frames w1)
          = D ++ [LoadAwaitingRender (Some (cycles w))]) as Hdel.
  { rewrite Hf1, <- Hlen. by rewrite delete_middle. }
  rewrite Hdel in Hw4.
  injection Hnav3 as Hd3 Hn3 Hf3 Hp3 Hr3 Hc3.
  cbn [this w1 suspend on_this call_pdfjs set_cycles set_frames pdfDoc
         pageNum pageRendering pageNumPending set_pageRendering set_pageNum
         set_pdfDoc cycles] in Hd3, Hn3, Hf3, Hp3, Hc3.
  rewrite finally_empty_slot in Hw4 by (cbn; congruence).
  (* [loadPDF] resumes *)
  assert (frames w4 !! k = Some (LoadAwaitingRender None)) as Hk4.
  { rewrite Hw4. cbn [settle frames set_frames on_this on_page].
    rewrite list_lookup_fmap, lookup_app_r, Hlen, Nat.sub_diag
      by (rewrite Hlen; lia).
    cbn. by rewrite Nat.eqb_refl. }
  exists (loadPDF_rendered (set_frames (delete k (frames w4)) w4)).
  cbn [run]. rewrite Hstep1, Hstep2, Hstep3, Hstep4.
  cbn [step]. unfold resume. rewrite Hk4.
  split; [reflexivity|].
  unfold loadPDF_rendered.
  destruct (updateUI_frame (set_frames (delete k (frames w4)) w4))
    as (Hthis & _ & Hcalls & _ & Hnodes & _ & Hcontainer & _ & _ & _ & _
        & Halerts).
  rewrite Hthis, Hnodes, Hcontainer, Halerts.
  cbn [this page set_frames].
  assert (this w4 = set_pageRendering false (this w3)) as Hthis4
    by (by rewrite Hw4).
  assert (pdfDoc (this w4) = Some doc) as Hdoc4
    by (rewrite Hthis4; cbn; congruence).
  assert (pageNum (this w4) = 1) as Hnum4
    by (rewrite Hthis4; cbn; congruence).
  split; [exact Hdoc4|]. split; [exact Hnum4|].
  split; [by rewrite Hthis4|].
  split; [rewrite Hthis4; cbn; congruence|].
  split.
  { unfold page_requests. rewrite Hcalls.
    change (page_requests w4 = page_requests w ++ [1]).
    assert (page_requests w4 = page_requests w3) as -> by (by rewrite Hw4).
    rewrite Hr3. subst w1. unfold page_requests.
    cbn [pdfjs suspend set_frames call_pdfjs set_cycles on_this].
    by rewrite omap_app. }
  unfold updateUI. cbn [this set_frames]. rewrite Hdoc4, Hnum4.
  cbn [page on_page set_controls pageInfo prevPage_disabled
         nextPage_disabled].
  split; [reflexivity|]. split; [reflexivity|].
  split; [rewrite Z.geb_le; lia|].
  split; [exact Hcont|]. split; [exact Hbuilt|exact Hal].
Qed.

Lemma load_shows_first_page_doc3 :
  exists w0 w',
    run [FileChosen (Some Fixture.some_file); FileRead 0 (Resolved [])]
      (constructor Fixture.blank) = Some w0
    /\ run [DocumentOpened 0 (Resolved Fixture.doc3);
            PageFetched 0 (Resolved Fixture.page_ok);
            TextFetched 1 (Resolved []); RenderResumed 1; LoadResumed 0]
         w0 = Some w'
    /\ pageInfo (page w') = lit "Page 1 of 3"
    /\ nextPage_disabled (page w') = false
    /\ pdfContainer (page w') = [0%nat].
Proof.
  set (es := [FileChosen (Some Fixture.some_file); FileRead 0 (Resolved [])]).
  set (w0 := Fixture.after es).
  assert (run es (constructor Fixture.blank) = Some w0) as Hrun0
    by (vm_compute; reflexivity).
  destruct (load_shows_first_page w0 0 Fixture.doc3 Fixture.page_ok
              (Viewport 0) (Resolved []) eq_refl eq_refl eq_refl eq_refl)
    as (w' & Hrun & _ & _ & _ & _ & _ & Hinfo & _ & Hnext & Hcont & _).
  exists w0, w'. split; [exact Hrun0|]. split; [exact Hrun|].
  split; [exact Hinfo|]. split; [|exact Hcont].
  destruct (nextPage_disabled (page w')); [|reflexivity].
  exfalso. assert (numPages Fixture.doc3 <= 1) as Hle by by apply Hnext.
  vm_compute in Hle. by apply Hle.
Defined.

End Rendering.

(** ** Render cycles: one at a time, each to its end *)

Section Cycles.

Lemma filter_length_pos (p : Frame -> bool) (l : list Frame) :
  (0 < length (List.filter p l))%nat ->
  exists i f, l !! i = Some f /\ p f = true.
Proof.
  induction l as [|x l IH]; cbn [List.filter]; [cbn; lia|].
  destruct (p x) eqn:Hx.
  - intros _. by exists 0%nat, x.
  - intros Hpos. destruct (IH Hpos) as (i & f & Hi & Hf).
    by exists (S i), f.
Qed.

Lemma filter_length_zero (p : Frame -> bool) (l : list Frame) :
  length (List.filter p l) = 0%nat -> forall f, f ∈ l -> p f = false.
Proof.
  induction l as [|x l IH]; cbn [List.filter]; intros Hzero f Hin.
  - by apply elem_of_nil in Hin.
  - destruct (p x) eqn:Hx; [discriminate|].
    apply elem_of_cons in Hin as [->|Hin]; [exact Hx|by apply IH].
Qed.

(** X15.  Render cycles do not overlap.  In every reachable world at most
    one cycle is suspended in the pool, and the rendering flag is up exactly
    when one is: a raised flag always belongs to a cycle that is waiting
    for the library, and with the flag down no cycle is pending anywhere. *)
Theorem render_cycles_do_not_overlap (b : Browser) (w : World) :
  reachable b w ->
  in_flight w = (if pageRendering (this w) then 1 else 0)%nat
  /\ (pageRendering (this w) = true ->
      exists i f c, frames w !! i = Some f /\ cycle_of f = Some c)
  /\ (pageRendering (this w) = false ->
      forall f, f ∈ frames w -> cycle_of f = None).
Proof.
  intros Hreach. pose proof (balanced_reachable b w Hreach) as Hbal.
  unfold balanced in Hbal. split; [exact Hbal|]. split.
  - intros Hup. rewrite Hup in Hbal.
    destruct (filter_length_pos is_render_frame (frames w)) as (i & f & Hi & Hf).
    { unfold in_flight in Hbal. lia. }
    exists i, f. destruct f; try discriminate Hf; by eexists.
  - intros Hdown f Hin. rewrite Hdown in Hbal.
    pose proof (filter_length_zero is_render_frame (frames w) Hbal f Hin)
      as Hf.
    by destruct f.
Qed.

Lemma render_cycles_do_not_overlap_rendering :
  reachable Fixture.blank
    (Fixture.after (Fixture.opening ++ [NextClicked; NextClicked]))
  /\ in_flight
       (Fixture.after (Fixture.opening ++ [NextClicked; NextClicked]))
     = 1%nat.
Proof.
  set (w := Fixture.after _).
  assert (reachable Fixture.blank w) as Hreach.
  { eapply after_reachable. vm_compute. reflexivity. }
  split; [exact Hreach|].
  destruct (render_cycles_do_not_overlap Fixture.blank w Hreach) as (-> & _).
  vm_compute. reflexivity.
Defined.

(** A cycle whose page or viewport fails goes straight to [finally]. *)
Lemma gotPage_failure c r w err i :
  render_error (PageFetched i r) = Some err ->
  exists x,
    renderCurrentPage_gotPage c r w = renderCurrentPage_finally c x
    /\ nav x = nav w.
Proof.
  intros Herr. unfold renderCurrentPage_gotPage.
  destruct r as [pg|err']; cbn [render_error] in Herr.
  - destruct (getViewport pg) as [v|err'']; [discriminate|].
    eexists. split; [reflexivity|].
    unfold nav. cbn. unfold page_requests. cbn.
    by rewrite omap_app, app_nil_r.
  - eexists. by split.
Qed.

(** X16.  A cycle that is waiting for its page runs to its end whatever the
    library answers: in one step when [getPage] rejects or [getViewport]
    throws, in three steps otherwise (also when the text request fails).
    With an empty slot the flag is down afterwards; the document handle,
    the current page and the trace of page requests are as before. *)
Theorem render_cycle_runs_to_its_end (w : World) (i c : nat)
    (r_page : Result PDFPageProxy) (r_text : Result (list TextItem)) :
  frames w !! i = Some (RenderGettingPage c) ->
  pageNumPending (this w) = None ->
  exists w',
    run (cycle_events i (length (frames w) - 1) r_page r_text) w = Some w'
    /\ (length (cycle_events i (length (frames w) - 1) r_page r_text) <= 3)%nat
    /\ pageRendering (this w') = false
    /\ pageNumPending (this w') = None
    /\ pdfDoc (this w') = pdfDoc (this w)
    /\ pageNum (this w') = pageNum (this w)
    /\ page_requests w' = page_requests w.
Proof.
  intros Hf Hslot.
  assert (forall x, nav x = nav w ->
            pageRendering (this (renderCurrentPage_finally c x)) = false
            /\ pageNumPending (this (renderCurrentPage_finally c x)) = None
            /\ pdfDoc (this (renderCurrentPage_finally c x)) = pdfDoc (this w)
            /\ pageNum (this (renderCurrentPage_finally c x))
               = pageNum (this w)
            /\ page_requests (renderCurrentPage_finally c x)
               = page_requests w) as Hfinal.
  { intros x Hnav. injection Hnav as Hd Hn _ Hp Hr _.
    destruct (nav_finally c x)
      as (Hpend & Hdoc & [(Hdown & Hpage & Hreq & _)|(P & doc & HP & _)]);
      cbn [nav nav_doc nav_page nav_rendering nav_requests nav_pending]
        in *; [|congruence].
    repeat split; congruence. }
  unfold cycle_events.
  destruct (render_error (PageFetched i r_page)) as [err|] eqn:Herr.
  - destruct (gotPage_failure c r_page (set_frames (delete i (frames w)) w)
                err i Herr) as (x & Hx & Hnav).
    eexists. cbn [run step]. unfold resume. rewrite Hf.
    split; [reflexivity|]. split; [cbn; lia|].
    rewrite Hx. by apply Hfinal.
  - destruct r_page as [pg|err]; [|discriminate Herr]. cbn in Herr.
    destruct (getViewport pg) as [v|err] eqn:Hv; [|discriminate Herr].
    destruct (whole_cycle w i c pg v r_text Hf Hv)
      as (w1 & w2 & w3 & Hstep1 & Hstep2 & Hstep3 & Hnav2 & _ & Hw3 & _).
    exists w3. cbn [run]. rewrite Hstep1, Hstep2, Hstep3.
    split; [reflexivity|]. split; [cbn; lia|].
    rewrite Hw3. apply Hfinal. by rewrite <- Hnav2.
Qed.

Lemma render_cycle_runs_to_its_end_rejected :
  exists w',
    run [PageFetched 0 (Rejected "no such page")] Fixture.rendering = Some w'
    /\ pageRendering (this w') = false
    /\ pageNum (this w') = 1.
Proof.
  destruct (render_cycle_runs_to_its_end Fixture.rendering 0 0
              (Rejected "no such page") (Resolved []) eq_refl eq_refl)
    as (w' & Hrun & _ & Hdown & _ & _ & Hpage & _).
  exists w'. split; [exact Hrun|]. split; [exact Hdown|].
  rewrite Hpage. vm_compute. reflexivity.
Defined.

(** *** The parameters of the library calls *)

(** What the reader passes in a call, given its scale: the two font options
    of [getDocument], the scale of [getViewport], the options of
    [getTextContent]. *)
Definition call_as_written (s : Q) (c : PdfjsCall) : Prop :=
  match c with
  | GetDocument init =>
      disableFontFace init = false /\ useSystemFonts init = true
  | GetPage _ => True
  | GetViewport s' => s' = s
  | GetTextContent p => p = textContentParams
  end.

(** [w'] extends the trace of [w] by calls as written, with the same scale. *)
Definition extends_calls (w w' : World) : Prop :=
  scale (this w') = scale (this w)
  /\ exists l, pdfjs w' = pdfjs w ++ l
               /\ Forall (call_as_written (scale (this w))) l.

Lemma extends_calls_refl w w' :
  scale (this w') = scale (this w) -> pdfjs w' = pdfjs w ->
  extends_calls w w'.
Proof.
  intros Hs Hc. split; [exact Hs|]. exists []. by rewrite app_nil_r.
Qed.

Lemma extends_calls_trans w1 w2 w3 :
  extends_calls w1 w2 -> extends_calls w2 w3 -> extends_calls w1 w3.
Proof.
  intros (Hs1 & l1 & Hc1 & Hl1) (Hs2 & l2 & Hc2 & Hl2).
  split; [congruence|]. exists (l1 ++ l2).
  split; [by rewrite Hc2, Hc1, app_assoc|].
  apply Forall_app. split; [exact Hl1|]. by rewrite <- Hs1.
Qed.

Lemma extends_calls_call c w :
  call_as_written (scale (this w)) c -> extends_calls w (call_pdfjs c w).
Proof.
  intros Hc. split; [reflexivity|]. exists [c]. split; [reflexivity|].
  by constructor.
Qed.

Lemma extends_calls_renderCurrentPage w :
  extends_calls w (fst (renderCurrentPage w)).
Proof.
  unfold renderCurrentPage. destruct (pdfDoc (this w)); [|by apply extends_calls_refl].
  destruct (pageRendering (this w)); [by apply extends_calls_refl|].
  split; [reflexivity|]. eexists [_]. split; [reflexivity|].
  by repeat constructor.
Qed.

Lemma extends_calls_updateUI w : extends_calls w (updateUI w).
Proof.
  destruct (updateUI_frame w) as (Hthis & _ & Hcalls & _).
  apply extends_calls_refl; [by rewrite Hthis|exact Hcalls].
Qed.

Lemma extends_calls_navigateToPage P w :
  extends_calls w (navigateToPage P w).
Proof.
  unfold navigateToPage.
  destruct (pdfDoc (this w)); [|by apply extends_calls_refl].
  destruct (_ || _); [by apply extends_calls_refl|].
  destruct (pageRendering (this w)); [by apply extends_calls_refl|].
  eapply extends_calls_trans; [|apply extends_calls_updateUI].
  eapply extends_calls_trans; [|apply extends_calls_renderCurrentPage].
  by apply extends_calls_refl.
Qed.

Lemma extends_calls_finally c w :
  extends_calls w (renderCurrentPage_finally c w).
Proof.
  unfold renderCurrentPage_finally.
  eapply extends_calls_trans; [|by apply extends_calls_refl].
  destruct (pageNumPending _); [|by apply extends_calls_refl].
  eapply extends_calls_trans; [|apply extends_calls_navigateToPage].
  by apply extends_calls_refl.
Qed.

Lemma extends_calls_step e w w' : step e w = Some w' -> extends_calls w w'.
Proof.
  intros Hstep.
  destruct e as [file| | |sel| |i r|i r|i|i r|i r|i]; cbn [step] in Hstep.
  - inversion Hstep; subst. apply extends_calls_refl; by destruct file.
  - inversion Hstep; subst. apply extends_calls_navigateToPage.
  - inversion Hstep; subst. apply extends_calls_navigateToPage.
  - inversion Hstep; subst. apply extends_calls_refl; by destruct (trim sel).
  - inversion Hstep; subst. by apply extends_calls_refl.
  - take_frame Hstep i w. inversion Hstep; subst; clear Hstep.
    destruct r as [buf|err]; [|by apply extends_calls_refl].
    split; [reflexivity|]. eexists [_]. split; [reflexivity|].
    by repeat constructor.
  - take_frame Hstep i w. inversion Hstep; subst; clear Hstep.
    destruct r as [doc|err]; [|by apply extends_calls_refl].
    unfold loadPDF_gotDocument.
    match goal with
    | |- context [renderCurrentPage ?x] =>
        pose proof (extends_calls_renderCurrentPage x) as Hr;
        destruct (renderCurrentPage x) as [w1 promise]
    end.
    exact Hr.
  - take_frame Hstep i w. inversion Hstep; subst; clear Hstep.
    apply (extends_calls_trans _ (set_frames (delete i (frames w)) w));
      [by apply extends_calls_refl|apply extends_calls_updateUI].
  - take_frame Hstep i w. inversion Hstep; subst; clear Hstep.
    unfold renderCurrentPage_gotPage. destruct r as [pg|err].
    + destruct (getViewport pg) as [v|err].
      * destruct (build_page _ _) as [[pw tc] b'].
        split; [reflexivity|]. eexists [_; _]. split.
        { cbn [pdfjs suspend set_frames call_pdfjs on_this on_page].
          by rewrite <- app_assoc. }
        by repeat constructor.
      * eapply extends_calls_trans; [|apply extends_calls_finally].
        split; [reflexivity|]. eexists [_]. split; [reflexivity|].
        by repeat constructor.
    + eapply extends_calls_trans; [|apply extends_calls_finally].
      by apply extends_calls_refl.
  - take_frame Hstep i w. inversion Hstep; subst; clear Hstep.
    unfold renderTextContent_gotText. destruct r as [items|err];
      [|by apply extends_calls_refl].
    cbn [this console_log on_page set_frames textContainer].
    destruct (textContainer (this w)); [by apply extends_calls_refl|].
    destruct (processItem <$> items); by apply extends_calls_refl.
  - take_frame Hstep i w. inversion Hstep; subst; clear Hstep.
    unfold renderCurrentPage_rendered.
    eapply extends_calls_trans; [|apply extends_calls_finally].
    by apply extends_calls_refl.
Qed.

Lemma calls_as_written_reachable b w :
  reachable b w ->
  scale (this w) = 3 # 2
  /\ Forall (call_as_written (3 # 2)) (pdfjs w).
Proof.
  induction 1 as [|w e w' _ [Hs Hcalls] Hstep].
  - unfold constructor.
    destruct (updateUI_frame
                (on_page initDarkMode
                   {| this :=
                        {| pdfDoc := None; pageNum := 1;
                           pageRendering := false; pageNumPending := None;
                           scale := 3 # 2; textContainer := None |};
                      page := b; frames := []; pdfjs := [];
                      cycles := 0 |})) as (-> & _ & -> & _).
    by split.
  - destruct (extends_calls_step e w w' Hstep) as (Hs' & l & -> & Hl).
    split; [congruence|]. apply Forall_app. split; [exact Hcalls|].
    by rewrite <- Hs.
Qed.

(** X17.  The scale of the reader is never written: in every reachable
    world it is 1.5, and every viewport the reader has asked for was asked
    at that scale.  Every document was opened with [disableFontFace] false
    and [useSystemFonts] true. *)
Theorem library_calls_as_written (b : Browser) (w : World) :
  reachable b w ->
  scale (this w) = 3 # 2
  /\ (forall s, GetViewport s ∈ pdfjs w -> s = 3 # 2)
  /\ (forall init, GetDocument init ∈ pdfjs w ->
        disableFontFace init = false /\ useSystemFonts init = true).
Proof.
  intros Hreach.
  destruct (calls_as_written_reachable b w Hreach) as [Hs Hcalls].
  split; [exact Hs|]. split.
  - intros s Hin. exact (proj1 (Forall_forall _ _) Hcalls _ Hin).
  - intros init Hin. exact (proj1 (Forall_forall _ _) Hcalls _ Hin).
Qed.

Lemma library_calls_as_written_idle :
  reachable Fixture.blank Fixture.idle
  /\ GetViewport (3 # 2) ∈ pdfjs Fixture.idle
  /\ scale (this Fixture.idle) = 3 # 2.
Proof.
  pose proof idle_reachable as Hreach.
  split; [exact Hreach|]. split.
  - vm_compute. do 2 apply list_elem_of_further. apply list_elem_of_here.
  - exact (proj1 (library_calls_as_written Fixture.blank Fixture.idle
                    Hreach)).
Defined.

End Cycles.

(** ** A pending request across documents *)

Section PendingAcrossDocuments.

(** X18.  The pending slot is not tied to a document.  When a new document
    is opened while a render is in progress and a page P is pending, the
    slot keeps P; at the end of the render P is checked against the new
    document: if the new document has a page P, that page of the new
    document is requested and becomes the current page, otherwise the
    request is dropped, the flag goes down and the current page stays 1. *)
Theorem pending_request_moves_to_new_document (w : World) (i : nat)
    (doc : PDFDocumentProxy) (P : Z) (w1 : World) :
  pageRendering (this w) = true ->
  pageNumPending (this w) = Some P ->
  step (DocumentOpened i (Resolved doc)) w = Some w1 ->
  pageNumPending (this w1) = Some P
  /\ pdfDoc (this w1) = Some doc
  /\ page_requests w1 = page_requests w
  /\ forall e w2,
       ends_render e = true -> step e w1 = Some w2 ->
       pdfDoc (this w2) = Some doc
       /\ pageNumPending (this w2) = None
       /\ (1 <= P <= numPages doc ->
           page_requests w2 = page_requests w ++ [P]
           /\ pageNum (this w2) = P /\ pageRendering (this w2) = true)
       /\ (P < 1 \/ P > numPages doc ->
           page_requests w2 = page_requests w
           /\ pageNum (this w2) = 1 /\ pageRendering (this w2) = false).
Proof.
  intros Hflag Hslot Hstep. cbn [step] in Hstep. take_frame Hstep i w.
  inversion Hstep; subst; clear Hstep.
  unfold loadPDF_gotDocument, renderCurrentPage.
  cbn [this on_this pdfDoc set_pageNum set_pdfDoc pageRendering set_frames].
  rewrite Hflag.
  split; [exact Hslot|]. split; [reflexivity|]. split; [reflexivity|].
  intros e w2 Hend Hstep.
  destruct (ends_render_step e _ w2 Hend Hstep)
    as (j & f & c & w0 & _ & _ & -> & Hnav & _).
  injection Hnav as Hd0 Hn0 Hf0 Hp0 Hr0 Hc0.
  cbn in Hd0, Hn0, Hp0. change (page_requests w0 = page_requests w) in Hr0.
  destruct (nav_finally c w0)
    as (Hpend & Hdoc & [(Hdown & Hpage & Hreq & _ & Hno)|
                        (P' & doc' & HP' & Hdoc' & Hvalid & Hup & Hpage
                         & Hreq & _)]);
    cbn [nav nav_doc nav_page nav_rendering nav_requests nav_pending] in *.
  - split; [congruence|]. split; [exact Hpend|]. split.
    + intros HP. exfalso. apply (Hno P doc); congruence.
    + intros _. repeat split; congruence.
  - assert (P' = P) as -> by congruence.
    assert (doc' = doc) as -> by congruence.
    split; [congruence|]. split; [exact Hpend|]. split.
    + intros _. repeat split; congruence.
    + intros Hout. lia.
Qed.

Lemma pending_request_moves_to_new_document_doc7 :
  exists w0 w1 w2,
    run (Fixture.opening ++ [NextClicked; NextClicked;
                             FileChosen (Some Fixture.some_file);
                             FileRead 2 (Resolved [])])
      (constructor Fixture.blank) = Some w0
    /\ pageNumPending (this w0) = Some 2
    /\ step (DocumentOpened 2 (Resolved {| numPages := 7 |})) w0 = Some w1
    /\ step (PageFetched 0 (Rejected "late")) w1 = Some w2
    /\ pdfDoc (this w2) = Some {| numPages := 7 |}
    /\ pageNum (this w2) = 2.
Proof.
  set (es := Fixture.opening ++ _).
  set (w0 := Fixture.after es).
  set (e1 := DocumentOpened 2 (Resolved {| numPages := 7 |})).
  set (w1 := default w0 (step e1 w0)).
  set (e2 := PageFetched 0 (Rejected "late")).
  set (w2 := default w1 (step e2 w1)).
  assert (step e1 w0 = Some w1) as Hstep1 by (vm_compute; reflexivity).
  assert (step e2 w1 = Some w2) as Hstep2 by (vm_compute; reflexivity).
  exists w0, w1, w2. split; [vm_compute; reflexivity|].
  split; [vm_compute; reflexivity|].
  split; [exact Hstep1|]. split; [exact Hstep2|].
  destruct (pending_request_moves_to_new_document w0 2 {| numPages := 7 |} 2
              w1 eq_refl eq_refl Hstep1) as (_ & _ & _ & Hend).
  destruct (Hend e2 w2 eq_refl Hstep2) as (Hdoc & _ & Hvalid & _).
  split; [exact Hdoc|].
  apply Hvalid. vm_compute. split; discriminate.
Defined.

End PendingAcrossDocuments.
